(** * Peer manager and traffic event sender of the tunnel server

    A shallow embedding of [internal/manager/internal.go],
    [internal/manager/peers.go] and [internal/manager/events.go].

    The manager drives three collaborators (storage, IPv4 pool, WireGuard)
    and an event log.  Their implementations live outside the manager
    package, so they are modelled here as small state machines whose every
    call is recorded in a trace and can be made to fail by a fault oracle. *)

From Stdlib Require Import ZArith Lia List Bool.
From stdpp Require Import gmap strings list fin_maps.

Local Open Scope Z_scope.

(** ** 64-bit integers *)

Definition wrap64 (z : Z) : Z := (z + 2 ^ 63) mod 2 ^ 64 - 2 ^ 63.
Definition wrapU64 (z : Z) : Z := z mod 2 ^ 64.

(** ** Errors (pkg/xerror and the collaborators' own) *)

Inductive collaborator := Storage | Pool | Wireguard | EventLog | Mutex.

Inductive error :=
| EInvalidArgument (msg : string)
| EEntryNotFound (msg : string)
| EUnavailable (msg : string)
| EInternalError (msg : string)
| ErrNotInRange
| ErrAddressInUse
| ErrNoSpace
| ErrNotReserved
| EFailure (c : collaborator).

(** A Go [(value, error)] pair. *)
Inductive result (A : Type) :=
| Ok (a : A)
| Err (e : error).
Arguments Ok {A} a.
Arguments Err {A} e.

Definition err_of {A} (r : result A) : option error :=
  match r with Ok _ => None | Err e => Some e end.

(** ** types.PeerInfo *)

(** [xnet.IP] wraps a [net.IP] byte slice; [None] is the nil slice. *)
Record xnetIP := mkIP { IP : option Z }.

Definition ip_Equal (a b : xnetIP) : bool :=
  match IP a, IP b with
  | Some x, Some y => x =? y
  | None, None => true
  | _, _ => false
  end.

Record PeerInfo := mkPeer {
  ID : Z;
  UserId : option string;
  InstallationId : option string;
  SessionId : option string;
  WireguardPublicKey : option string;
  Ipv4 : option xnetIP;
  NetworkPolicy : Z;
  Expires : option Z;
  Created : option Z;
  Updated : option Z;
  Upstream : option Z;
  Downstream : option Z
}.

Definition emptyPeer : PeerInfo :=
  mkPeer 0 None None None None None 0 None None None None None.

Definition with_ID (p : PeerInfo) (id : Z) : PeerInfo :=
  mkPeer id (UserId p) (InstallationId p) (SessionId p) (WireguardPublicKey p)
    (Ipv4 p) (NetworkPolicy p) (Expires p) (Created p) (Updated p)
    (Upstream p) (Downstream p).

Definition with_Ipv4 (p : PeerInfo) (ip : option xnetIP) : PeerInfo :=
  mkPeer (ID p) (UserId p) (InstallationId p) (SessionId p) (WireguardPublicKey p)
    ip (NetworkPolicy p) (Expires p) (Created p) (Updated p)
    (Upstream p) (Downstream p).

Definition with_Updated (p : PeerInfo) (t : option Z) : PeerInfo :=
  mkPeer (ID p) (UserId p) (InstallationId p) (SessionId p) (WireguardPublicKey p)
    (Ipv4 p) (NetworkPolicy p) (Expires p) (Created p) t
    (Upstream p) (Downstream p).

Definition with_Expires (p : PeerInfo) (t : option Z) : PeerInfo :=
  mkPeer (ID p) (UserId p) (InstallationId p) (SessionId p) (WireguardPublicKey p)
    (Ipv4 p) (NetworkPolicy p) t (Created p) (Updated p)
    (Upstream p) (Downstream p).

Definition GetNetworkPolicy (p : PeerInfo) : Z := NetworkPolicy p.

(** Modelled from the spec: [types.PeerInfo.Expired] is not part of the
    manager package; a peer is expired iff [expires] is set and in the past. *)
Definition Expired (now : Z) (p : PeerInfo) : bool :=
  match Expires p with
  | Some t => t <? now
  | None => false
  end.

Record PeerIdentifiers := mkIds {
  ids_UserId : option string;
  ids_InstallationId : option string;
  ids_SessionId : option string
}.

Definition query_of (ids : PeerIdentifiers) : PeerInfo :=
  mkPeer 0 (ids_UserId ids) (ids_InstallationId ids) (ids_SessionId ids)
    None None 0 None None None None None.

(** ** Outcomes: a Go call returns, or panics *)

Inductive outcome (S A : Type) :=
| Done (a : A) (s : S)
| Crash (s : S).
Arguments Done {S A} a s.
Arguments Crash {S A} s.

Definition M (S A : Type) : Type := S -> outcome S A.

Definition ret {S A} (a : A) : M S A := fun s => Done a s.
Definition bind {S A B} (m : M S A) (k : A -> M S B) : M S B :=
  fun s => match m s with
           | Done a s' => k a s'
           | Crash s' => Crash s'
           end.
Definition panic {S A} : M S A := fun s => Crash s.

Notation "'do' x <- m ; k" := (bind m (fun x => k))
  (at level 10, x name, m at level 100, k at level 200).
Notation "'do_' m ; k" := (bind m (fun _ => k))
  (at level 10, m at level 100, k at level 200).

Definition final_state {S A} (o : outcome S A) : S :=
  match o with Done _ s => s | Crash s => s end.

Definition crashed {S A} (o : outcome S A) : bool :=
  match o with Done _ _ => false | Crash _ => true end.

(** ** The manager and its collaborators *)

Module Manager.

Inductive EventType := PeerAdd | PeerUpdate | PeerRemove | PeerTraffic.

Record LinkStatistics := mkLink {
  RxBytes : Z; RxPackets : Z; RxErrors : Z;
  TxBytes : Z; TxPackets : Z; TxErrors : Z
}.

Record CachedStatistics := mkStats {
  PeersTotal : Z;
  PeersWithTraffic : Z;
  PeersActiveLastHour : Z;
  PeersActiveLastDay : Z;
  LinkStat : option LinkStatistics;
  StatUpstream : Z;
  StatDownstream : Z
}.

Definition zeroStatistics : CachedStatistics := mkStats 0 0 0 0 None 0 0.

(** Every call the manager makes on a collaborator, and on its own mutex. *)
Inductive Call :=
| StorageCreatePeer (p : PeerInfo)
| StorageUpdatePeer (p : PeerInfo)
| StorageDeletePeer (id : Z)
| StorageGetPeer (id : Z)
| StorageSearchPeers (q : option PeerInfo)
| StorageSetUpstreamMetric (v : Z)
| StorageSetDownstreamMetric (v : Z)
| PoolAlloc (policy : Z)
| PoolSet (ip : xnetIP) (policy : Z)
| PoolUnset (ip : xnetIP)
| WgSetPeer (p : PeerInfo)
| WgUnsetPeer (p : PeerInfo)
| WgGetPeers
| WgGetLinkStatistic
| EventPush (t : EventType) (p : PeerInfo)
| MutexLock
| MutexUnlock.

Definition entry : Type := Call * option error.

Record world := mkWorld {
  rows : list PeerInfo;               (* storage: persisted peers *)
  next_id : positive;                 (* storage: next id to assign *)
  used : gset Z;                      (* pool: reserved addresses *)
  iface : gmap string PeerInfo;       (* wireguard: entries by public key *)
  link : list LinkStatistics;         (* wireguard: link samples to come *)
  trace : list entry;                 (* calls made so far, oldest first *)
  allPeersGauge : Z;
  running : bool;                     (* manager.running *)
  statistic : CachedStatistics        (* manager.statistic *)
}.

Definition set_rows (w : world) (r : list PeerInfo) (n : positive) : world :=
  mkWorld r n (used w) (iface w) (link w) (trace w) (allPeersGauge w)
    (running w) (statistic w).
Definition set_used (w : world) (u : gset Z) : world :=
  mkWorld (rows w) (next_id w) u (iface w) (link w) (trace w) (allPeersGauge w)
    (running w) (statistic w).
Definition set_iface (w : world) (i : gmap string PeerInfo) : world :=
  mkWorld (rows w) (next_id w) (used w) i (link w) (trace w) (allPeersGauge w)
    (running w) (statistic w).
Definition set_link (w : world) (l : list LinkStatistics) : world :=
  mkWorld (rows w) (next_id w) (used w) (iface w) l (trace w) (allPeersGauge w)
    (running w) (statistic w).
Definition set_gauge (w : world) (g : Z) : world :=
  mkWorld (rows w) (next_id w) (used w) (iface w) (link w) (trace w) g
    (running w) (statistic w).
Definition set_statistic (w : world) (s : CachedStatistics) : world :=
  mkWorld (rows w) (next_id w) (used w) (iface w) (link w) (trace w)
    (allPeersGauge w) (running w) s.
Definition log (c : Call) (e : option error) (w : world) : world :=
  mkWorld (rows w) (next_id w) (used w) (iface w) (link w)
    (trace w ++ [(c, e)]) (allPeersGauge w) (running w) (statistic w).

(** The part of the trace of [w'] that was added after [w]. *)
Definition since (w w' : world) : list entry :=
  drop (length (trace w)) (trace w').

Definition where_of (c : Call) : collaborator :=
  match c with
  | StorageCreatePeer _ | StorageUpdatePeer _ | StorageDeletePeer _
  | StorageGetPeer _ | StorageSearchPeers _
  | StorageSetUpstreamMetric _ | StorageSetDownstreamMetric _ => Storage
  | PoolAlloc _ | PoolSet _ _ | PoolUnset _ => Pool
  | WgSetPeer _ | WgUnsetPeer _ | WgGetPeers | WgGetLinkStatistic => Wireguard
  | EventPush _ _ => EventLog
  | MutexLock | MutexUnlock => Mutex
  end.

Section Collaborators.

(** [faulty n c]: the [n]-th call of the run, being [c], fails for a reason
    of the collaborator's own (I/O, driver) and leaves its state alone. *)
Variable faulty : nat -> Call -> bool.

(** The pool's configuration: the addresses each network policy may use. *)
Variable subnet : Z -> list Z.

(** The wall clock. *)
Variable now : Z.

(** A collaborator call: consult the oracle, run, record. *)
Definition call {A} (c : Call) (sem : world -> result A * world)
  : M world (result A) :=
  fun w =>
    if faulty (length (trace w)) c
    then Done (Err (EFailure (where_of c))) (log c (Some (EFailure (where_of c))) w)
    else let '(r, w') := sem w in Done r (log c (err_of r) w').

Definition as_error (r : result unit) : option error := err_of r.

Definition call_ (c : Call) (sem : world -> result unit * world)
  : M world (option error) :=
  do r <- call c sem; ret (as_error r).

(** *** Storage (the engine is outside the manager package) *)

Definition has_id (id : Z) (p : PeerInfo) : bool := ID p =? id.

Definition opt_matches (q r : option string) : bool :=
  match q with
  | None => true
  | Some a => match r with Some b => bool_decide (a = b) | None => false end
  end.

Definition matches (q : PeerInfo) (p : PeerInfo) : bool :=
  opt_matches (UserId q) (UserId p)
  && opt_matches (InstallationId q) (InstallationId p)
  && opt_matches (SessionId q) (SessionId p).

(** Modelled from the spec: what [Storage.SearchPeers] selects; a nil query
    is all rows, a non-nil one matches on the identifier fields it sets. *)
Definition search (q : option PeerInfo) (l : list PeerInfo) : list PeerInfo :=
  match q with
  | None => l
  | Some q => List.filter (matches q) l
  end.

(** Modelled from the spec: [Storage.CreatePeer], which assigns the next id
    (monotonic, positive) and stores the row under it. *)
Definition storage_CreatePeer (p : PeerInfo) : M world (result Z) :=
  call (StorageCreatePeer p) (fun w =>
    let id := Z.pos (next_id w) in
    (Ok id, set_rows w (rows w ++ [with_ID p id]) (Pos.succ (next_id w)))).

(** Modelled from the spec: [Storage.UpdatePeer], which overwrites the row
    that has the record's id and returns that id. *)
Definition storage_UpdatePeer (p : PeerInfo) : M world (result Z) :=
  call (StorageUpdatePeer p) (fun w =>
    if existsb (has_id (ID p)) (rows w)
    then (Ok (ID p),
          set_rows w (List.map (fun r => if has_id (ID p) r then p else r) (rows w))
            (next_id w))
    else (Err (EEntryNotFound "peer not found"), w)).

(** Modelled from the spec: [Storage.DeletePeer], which drops the row that
    has the id. *)
Definition storage_DeletePeer (id : Z) : M world (option error) :=
  call_ (StorageDeletePeer id) (fun w =>
    (Ok tt, set_rows w (List.filter (fun r => negb (has_id id r)) (rows w)) (next_id w))).

(** Modelled from the spec: [Storage.GetPeer]; a peer once created is
    retrievable by id until deleted. *)
Definition storage_GetPeer (id : Z) : M world (result PeerInfo) :=
  call (StorageGetPeer id) (fun w =>
    match List.find (has_id id) (rows w) with
    | Some p => (Ok p, w)
    | None => (Err (EEntryNotFound "peer not found"), w)
    end).

(** Modelled from the spec: [Storage.SearchPeers]. *)
Definition storage_SearchPeers (q : option PeerInfo) : M world (result (list PeerInfo)) :=
  call (StorageSearchPeers q) (fun w => (Ok (search q (rows w)), w)).

(** Modelled from the spec: [Storage.SetUpstreamMetric] and
    [Storage.SetDownstreamMetric], which return nothing. *)
Definition storage_SetUpstreamMetric (v : Z) : M world unit :=
  fun w => Done tt (log (StorageSetUpstreamMetric v) None w).

Definition storage_SetDownstreamMetric (v : Z) : M world unit :=
  fun w => Done tt (log (StorageSetDownstreamMetric v) None w).

(** *** IP pool (the allocator is outside the manager package) *)

Definition is_used (w : world) (a : Z) : bool := bool_decide (a ∈ used w).

Definition in_range (policy a : Z) : bool := existsb (Z.eqb a) (subnet policy).

(** Modelled from the spec: [Pool.Alloc], which reserves and returns a free
    address of the policy's range, here the first one. *)
Definition ip4am_Alloc (policy : Z) : M world (result xnetIP) :=
  call (PoolAlloc policy) (fun w =>
    match List.find (fun a => negb (is_used w a)) (subnet policy) with
    | Some a => (Ok (mkIP (Some a)), set_used w ({[a]} ∪ used w))
    | None => (Err ErrNoSpace, w)
    end).

(** Modelled from the spec: [Pool.Set], which reserves the given address; it
    reports ErrNotInRange outside the policy's range and refuses an address
    that is already reserved. *)
Definition ip4am_Set (ip : xnetIP) (policy : Z) : M world (option error) :=
  call_ (PoolSet ip policy) (fun w =>
    match IP ip with
    | None => (Err ErrNotInRange, w)
    | Some a =>
        if negb (in_range policy a) then (Err ErrNotInRange, w)
        else if is_used w a then (Err ErrAddressInUse, w)
        else (Ok tt, set_used w ({[a]} ∪ used w))
    end).

(** Modelled from the spec: [Pool.Unset], which releases the reservation of
    the given address. *)
Definition ip4am_Unset (ip : xnetIP) : M world (option error) :=
  call_ (PoolUnset ip) (fun w =>
    match IP ip with
    | None => (Err ErrNotReserved, w)
    | Some a =>
        if is_used w a then (Ok tt, set_used w (used w ∖ {[a]}))
        else (Err ErrNotReserved, w)
    end).

(** *** WireGuard (the driver is outside the manager package) *)

(** Modelled from the spec: [WireGuard.SetPeer], which configures the entry
    keyed by the peer's public key; the key is required. *)
Definition wireguard_SetPeer (p : PeerInfo) : M world (option error) :=
  call_ (WgSetPeer p) (fun w =>
    match WireguardPublicKey p with
    | None => (Err (EInvalidArgument "no public key"), w)
    | Some k => (Ok tt, set_iface w (<[k := p]> (iface w)))
    end).

(** Modelled from the spec: [WireGuard.UnsetPeer], which removes the entry
    keyed by the peer's public key. *)
Definition wireguard_UnsetPeer (p : PeerInfo) : M world (option error) :=
  call_ (WgUnsetPeer p) (fun w =>
    match WireguardPublicKey p with
    | None => (Err (EInvalidArgument "no public key"), w)
    | Some k => (Ok tt, set_iface w (delete k (iface w)))
    end).

(** Modelled from the spec: [WireGuard.GetPeers], the entries by public key. *)
Definition wireguard_GetPeers : M world (result (gmap string PeerInfo)) :=
  call WgGetPeers (fun w => (Ok (iface w), w)).

(** Modelled from the spec: [WireGuard.GetLinkStatistic]; each call reads the
    next sample of the link counters, and none left is a driver error. *)
Definition wireguard_GetLinkStatistic : M world (result LinkStatistics) :=
  call WgGetLinkStatistic (fun w =>
    match link w with
    | s :: rest => (Ok s, set_link w rest)
    | [] => (Err (EFailure Wireguard), w)
    end).

(** *** Event log *)

(** Modelled from the spec: [EventLog.Push], an append-only sink.  Every
    caller logs and drops its error, so the model returns unit. *)
Definition eventLog_Push (t : EventType) (p : PeerInfo) : M world unit :=
  do_ call_ (EventPush t p) (fun w => (Ok tt, w)); ret tt.

(** [allPeersGauge.Inc()] and [.Dec()]. *)
Definition gauge_add (d : Z) : M world unit :=
  fun w => Done tt (set_gauge w (allPeersGauge w + d)).

(** *** internal.go *)

Definition first_error (errors : list (option error)) : option error :=
  List.fold_right (fun e acc => match e with Some _ => e | None => acc end)
    None errors.

Definition peers : M world (result (list PeerInfo)) :=
  storage_SearchPeers None.

Definition unsetPeer (peer : PeerInfo) : M world (option error) :=
  do errManager <- storage_DeletePeer (ID peer);
  do errWireguard <- wireguard_UnsetPeer peer;
  match Ipv4 peer with
  | None => panic
  | Some ip =>
      do errPool <- ip4am_Unset ip;
      do_ gauge_add (-1);
      do_ eventLog_Push PeerRemove peer;
      ret (first_error [errManager; errPool; errWireguard])
  end.

(** The closure of [setPeer]: address, then row, then interface. *)
Definition setPeer_apply (peer : PeerInfo) : M world (PeerInfo * option error) :=
  if Expired now peer
  then ret (peer, Some (EInvalidArgument "peer already expired"))
  else
    do pe <-
      match Ipv4 peer with
      | Some (mkIP (Some a)) =>
          do e <- ip4am_Set (mkIP (Some a)) (GetNetworkPolicy peer);
          ret (peer, e)
      | _ =>
          do r <- ip4am_Alloc (GetNetworkPolicy peer);
          match r with
          | Err e => ret (peer, Some e)
          | Ok ipv4 => ret (with_Ipv4 peer (Some ipv4), None)
          end
      end;
    match pe with
    | (peer, Some e) => ret (peer, Some e)
    | (peer, None) =>
        do r <- storage_CreatePeer peer;
        match r with
        | Err e => ret (peer, Some e)
        | Ok id =>
            do e <- wireguard_SetPeer (with_ID peer id);
            ret (with_ID peer id, e)
        end
    end.

Definition setPeer_rollback (peer : PeerInfo) : M world unit :=
  do_ match Ipv4 peer with
      | Some ip => do_ ip4am_Unset ip; ret tt
      | None => ret tt
      end;
  if 0 <? ID peer
  then do_ storage_DeletePeer (ID peer); ret tt
  else ret tt.

Definition setPeer (peer : PeerInfo) : M world (PeerInfo * option error) :=
  do pe <- setPeer_apply peer;
  match pe with
  | (peer, Some e) =>
      do_ setPeer_rollback peer;
      ret (peer, Some e)
  | (peer, None) =>
      do_ gauge_add 1;
      do_ eventLog_Push PeerAdd peer;
      ret (peer, None)
  end.

Record progress := mkProgress { ipOK : bool; dbOK : bool; wgOK : bool }.

(** The closure of [updatePeer]. *)
Definition updatePeer_apply (oldPeer newPeer : PeerInfo)
  : M world (PeerInfo * progress * option error) :=
  do pe <-
    match Ipv4 newPeer with
    | None =>
        do r <- ip4am_Alloc (GetNetworkPolicy newPeer);
        match r with
        | Err _ => ret (with_Ipv4 newPeer (Ipv4 oldPeer), None)
        | Ok ipv4 => ret (with_Ipv4 newPeer (Some ipv4), None)
        end
    | Some nip =>
        match Ipv4 oldPeer with
        | None => panic
        | Some oip =>
            if negb (ip_Equal nip oip)
            then do e <- ip4am_Set nip (GetNetworkPolicy newPeer);
                 ret (newPeer, e)
            else ret (newPeer, None)
        end
    end;
  match pe with
  | (newPeer, Some e) => ret (newPeer, mkProgress false false false, Some e)
  | (newPeer, None) =>
      let newPeer := with_Updated newPeer (Some now) in
      do r <- storage_UpdatePeer newPeer;
      match r with
      | Err e => ret (newPeer, mkProgress true false false, Some e)
      | Ok id =>
          let newPeer := with_ID newPeer id in
          match WireguardPublicKey oldPeer, WireguardPublicKey newPeer with
          | Some ko, Some kn =>
              do e <- (if negb (bool_decide (ko = kn))
                       then wireguard_UnsetPeer oldPeer
                       else ret None);
              match e with
              | Some e => ret (newPeer, mkProgress true true false, Some e)
              | None =>
                  do e <- wireguard_SetPeer newPeer;
                  match e with
                  | Some _ =>
                      do e' <- wireguard_SetPeer oldPeer;
                      ret (newPeer, mkProgress true true false, e')
                  | None => ret (newPeer, mkProgress true true true, None)
                  end
              end
          | _, _ => panic
          end
      end
  end.

Definition updatePeer_revert (oldPeer newPeer : PeerInfo) (pr : progress)
  : M world unit :=
  do_ (if dbOK pr then do_ storage_UpdatePeer oldPeer; ret tt else ret tt);
  do_ (if ipOK pr
       then match Ipv4 newPeer, Ipv4 oldPeer with
            | Some nip, Some oip =>
                if negb (ip_Equal nip oip)
                then do_ ip4am_Unset nip; ret tt
                else ret tt
            | _, _ => panic
            end
       else ret tt);
  if wgOK pr
  then do_ wireguard_UnsetPeer newPeer;
       do_ wireguard_SetPeer oldPeer;
       ret tt
  else ret tt.

Definition updatePeer (newPeer : PeerInfo) : M world (PeerInfo * option error) :=
  if Expired now newPeer
  then do e <- unsetPeer newPeer; ret (newPeer, e)
  else
    do r <- storage_GetPeer (ID newPeer);
    match r with
    | Err e => ret (newPeer, Some e)
    | Ok oldPeer =>
        do res <- updatePeer_apply oldPeer newPeer;
        match res with
        | (newPeer, pr, Some e) =>
            do_ updatePeer_revert oldPeer newPeer pr;
            ret (newPeer, Some e)
        | (newPeer, _, None) =>
            do_ eventLog_Push PeerUpdate newPeer;
            ret (newPeer, None)
        end
    end.

Definition findPeerByIdentifiers (identifiers : option PeerIdentifiers)
  : M world (result PeerInfo) :=
  match identifiers with
  | None => ret (Err (EInvalidArgument "no identifiers"))
  | Some ids =>
      do r <- storage_SearchPeers (Some (query_of ids));
      match r with
      | Err e => ret (Err e)
      | Ok [] => ret (Err (EEntryNotFound "peer not found"))
      | Ok [p] => ret (Ok p)
      | Ok _ => ret (Err (EInvalidArgument "not enough identifiers to update peer"))
      end
  end.

(** *** peers.go: the public operations *)

Definition unavailable : error := EUnavailable "server is shutting down".

(** [manager.lock.Lock(); defer manager.lock.Unlock()]: the deferred unlock
    also runs while a panic unwinds. *)
Definition locked {A} (m : M world A) : M world A :=
  fun w =>
    match m (log MutexLock None w) with
    | Done a w' => Done a (log MutexUnlock None w')
    | Crash w' => Crash (log MutexUnlock None w')
    end.

Definition is_running : M world bool := fun w => Done (running w) w.

Definition SetPeer (info : PeerInfo) : M world (PeerInfo * option error) :=
  do r <- is_running;
  if negb r then ret (info, Some unavailable)
  else locked (setPeer info).

Definition UpdatePeer (info : PeerInfo) : M world (PeerInfo * option error) :=
  do r <- is_running;
  if negb r then ret (info, Some unavailable)
  else locked (updatePeer info).

Definition GetPeer (id : Z) : M world (result PeerInfo) :=
  do r <- is_running;
  if negb r then ret (Err unavailable)
  else locked (storage_GetPeer id).

Definition UnsetPeer (id : Z) : M world (option error) :=
  do r <- is_running;
  if negb r then ret (Some unavailable)
  else locked (
    do info <- storage_GetPeer id;
    match info with
    | Err e => ret (Some e)
    | Ok info => unsetPeer info
    end).

Definition UnsetPeerByIdentifiers (identifiers : option PeerIdentifiers)
  : M world (option error) :=
  do r <- is_running;
  if negb r then ret (Some unavailable)
  else locked (
    do info <- findPeerByIdentifiers identifiers;
    match info with
    | Err e => ret (Some e)
    | Ok info => unsetPeer info
    end).

Definition ListPeers : M world (result (list PeerInfo)) :=
  do r <- is_running;
  if negb r then ret (Err unavailable)
  else locked (storage_SearchPeers None).

Definition oldPeerShadow (info : PeerInfo) : PeerInfo :=
  query_of (mkIds (UserId info) (InstallationId info) None).

Definition ConnectPeer (info : PeerInfo) : M world (PeerInfo * option error) :=
  do r <- is_running;
  if negb r then ret (info, Some unavailable)
  else locked (
    do oldPeers <- storage_SearchPeers (Some (oldPeerShadow info));
    match oldPeers with
    | Err e => ret (info, Some e)
    | Ok [] => setPeer info
    | Ok [old] => updatePeer (with_Ipv4 (with_ID info (ID old)) (Ipv4 old))
    | Ok _ => ret (info, Some (EInternalError "too many peers for identifiers"))
    end).

Definition UpdatePeerExpiration (identifiers : option PeerIdentifiers)
    (expires : option Z) : M world (option error) :=
  match identifiers with
  | None => ret (Some (EInvalidArgument "no identifiers"))
  | Some ids =>
      do r <- is_running;
      if negb r then ret (Some unavailable)
      else locked (
        do found <- storage_SearchPeers (Some (query_of ids));
        match found with
        | Err e => ret (Some e)
        | Ok [] => ret (Some (EEntryNotFound "peer not found"))
        | Ok [p] =>
            do res <- updatePeer (with_Expires p expires);
            ret (snd res)
        | Ok _ => ret (Some (EInvalidArgument "not enough identifiers to update peer"))
        end)
  end.

(** *** The background sweep *)

Record UpdatePeerStatsResults := mkResults {
  NumPeers : Z;
  NumPeersWithHadshakes : Z;
  NumPeersActiveLastHour : Z;
  NumPeersActiveLastDay : Z;
  ExpiredPeers : list PeerInfo;
  UpdatedPeers : list PeerInfo
}.

(** The stats service is a separate package; the sweep only consumes its
    results, so it is a parameter here. *)
Variable statsService_UpdatePeerStats :
  list PeerInfo -> gmap string PeerInfo -> UpdatePeerStatsResults.

Fixpoint for_each {A} (f : A -> M world unit) (l : list A) : M world unit :=
  match l with
  | [] => ret tt
  | x :: rest => do_ f x; for_each f rest
  end.

(** Lines 317-332: both differences are taken in [uint64] and converted to
    [int64] before they are added to the cached counters. *)
Definition integrate (old : CachedStatistics) (results : UpdatePeerStatsResults)
    (linkStats : LinkStatistics) : CachedStatistics :=
  let diffUpstream :=
    match LinkStat old with
    | Some prev => wrapU64 (RxBytes linkStats - RxBytes prev)
    | None => RxBytes linkStats
    end in
  let diffDownstream :=
    match LinkStat old with
    | Some prev => wrapU64 (TxBytes linkStats - TxBytes prev)
    | None => TxBytes linkStats
    end in
  mkStats (NumPeers results) (NumPeersWithHadshakes results)
    (NumPeersActiveLastHour results) (NumPeersActiveLastDay results)
    (Some linkStats)
    (wrap64 (StatUpstream old + wrap64 diffUpstream))
    (wrap64 (StatDownstream old + wrap64 diffDownstream)).

Definition updatePeerStats : M world unit :=
  do r <- is_running;
  if negb r then ret tt
  else locked (
    (* on error the driver hands back a nil *LinkStatistics *)
    do linkStats <- wireguard_GetLinkStatistic;
    do wireguardPeers <- wireguard_GetPeers;
    do found <- peers;
    match found with
    | Err _ => ret tt
    | Ok persisted =>
        let results :=
          statsService_UpdatePeerStats persisted
            (match wireguardPeers with Ok m => m | Err _ => ∅ end) in
        do_ for_each (fun peer => do_ unsetPeer peer; ret tt) (ExpiredPeers results);
        do_ for_each (eventLog_Push PeerTraffic) (UpdatedPeers results);
        match linkStats with
        | Err _ => panic
        | Ok linkStats =>
            do_ (fun w => Done tt (set_statistic w (integrate (statistic w) results linkStats)));
            do up <- (fun w => Done (StatUpstream (statistic w)) w);
            do_ storage_SetUpstreamMetric up;
            do down <- (fun w => Done (StatDownstream (statistic w)) w);
            storage_SetDownstreamMetric down
        end
    end).

(** *** Startup *)

(** [errors.Is(err, ippool.ErrNotInRange)] *)
Definition is_ErrNotInRange (e : error) : bool :=
  match e with ErrNotInRange => true | _ => false end.

(** One turn of the loop of [restorePeers]; the peer is the loop's copy. *)
Definition restorePeer (peer : PeerInfo) : M world unit :=
  if Expired now peer
  then do_ storage_DeletePeer (ID peer); ret tt
  else
    match Ipv4 peer with
    | None => panic
    | Some ip =>
        do err <- ip4am_Set ip (GetNetworkPolicy peer);
        do kept <-
          match err with
          | None => ret (Some peer)
          | Some e =>
              if negb (is_ErrNotInRange e) then ret None
              else
                do r <- ip4am_Alloc (GetNetworkPolicy peer);
                match r with
                | Err _ => ret None
                | Ok newIP =>
                    do u <- storage_UpdatePeer (with_Ipv4 peer (Some newIP));
                    match u with
                    | Err _ => ret None
                    | Ok _ => ret (Some (with_Ipv4 peer (Some newIP)))
                    end
                end
          end;
        match kept with
        | None => ret tt
        | Some peer => do_ wireguard_SetPeer peer; gauge_add 1
        end
    end.

Definition restorePeers : M world unit :=
  do found <- peers;
  match found with
  | Err _ => ret tt
  | Ok persisted => for_each restorePeer persisted
  end.

(** *** The public operations as one entry point, for statements that
    range over all of them. *)

Inductive request :=
| ReqSetPeer (info : PeerInfo)
| ReqUpdatePeer (info : PeerInfo)
| ReqGetPeer (id : Z)
| ReqUnsetPeer (id : Z)
| ReqUnsetPeerByIdentifiers (identifiers : option PeerIdentifiers)
| ReqListPeers
| ReqConnectPeer (info : PeerInfo)
| ReqUpdatePeerExpiration (identifiers : option PeerIdentifiers) (expires : option Z).

(** The error a request comes back with. *)
Definition serve (r : request) : M world (option error) :=
  match r with
  | ReqSetPeer info => do res <- SetPeer info; ret (snd res)
  | ReqUpdatePeer info => do res <- UpdatePeer info; ret (snd res)
  | ReqGetPeer id => do res <- GetPeer id; ret (err_of res)
  | ReqUnsetPeer id => UnsetPeer id
  | ReqUnsetPeerByIdentifiers ids => UnsetPeerByIdentifiers ids
  | ReqListPeers => do res <- ListPeers; ret (err_of res)
  | ReqConnectPeer info => do res <- ConnectPeer info; ret (snd res)
  | ReqUpdatePeerExpiration ids expires => UpdatePeerExpiration ids expires
  end.

End Collaborators.

(** What [ConnectPeer]'s query selects: the rows that agree with the
    argument on the user and installation ids it sets. *)
Definition same_identity (info r : PeerInfo) : bool :=
  opt_matches (UserId info) (UserId r)
  && opt_matches (InstallationId info) (InstallationId r).

(** Calls that leave the manager's cached statistics alone. *)
Definition keeps_statistic {A} (m : M world A) : Prop :=
  forall w, statistic (final_state (m w)) = statistic w.

(** The RxBytes of the link sample cached by the previous sweep. *)
Definition previous_rx (st : CachedStatistics) : Z :=
  match LinkStat st with
  | Some prev => RxBytes prev
  | None => 0
  end.

(** [findWgPeerByPublicKey]; [zero] is the zero value [wgtypes.Peer{}], and
    a nil map has length 0 like an empty one. *)
Definition findWgPeerByPublicKey {W} (zero : W) (peer : PeerInfo)
    (wgPeers : gmap string W) : W * bool :=
  if Nat.eqb (size wgPeers) 0 then (zero, false)
  else
    match WireguardPublicKey peer with
    | None => (zero, false)
    | Some key =>
        match wgPeers !! key with
        | Some wgPeer => (wgPeer, true)
        | None => (zero, false)
        end
    end.

(** The peers that the calls of a run asked the WireGuard interface to set. *)
Definition programmed (l : list entry) : list PeerInfo :=
  List.flat_map
    (fun e => match e with (WgSetPeer p, _) => [p] | _ => [] end) l.

(** The expired rows still in storage are all among the peers that the
    startup loop has yet to visit. *)
Definition pending (now : Z) (l : list PeerInfo) (w : world) : Prop :=
  forall r, In r (rows w) -> Expired now r = true ->
    exists q, In q l /\ Expired now q = true /\ ID q = ID r.


End Manager.

(** ** The traffic event sender (events.go) *)

Module Sender.

Record trafficState := mkTraffic {
  UpstreamBytesChange : Z;
  DownstreamBytesChange : Z
}.

Definition Reset (_ : trafficState) : trafficState := mkTraffic 0 0.

(** [runtime.Settings.PeerStatistics] *)
Record PeerStatisticsSettings := mkSettings {
  TrafficChangeSendEventInterval : Z;
  MaxUpstreamTrafficChange : Z;
  MaxDownstreamTrafficChange : Z
}.

Definition DefaultSentEventInterval : Z := 60.

(** The maps hold the records by value; [eventLog] lists every push made on
    the event log, oldest first, with what the push returned. *)
Record sender := mkSender {
  maxUpstreamBytes : Z;
  maxDownstreamBytes : Z;
  sendInterval : Z;
  state : trafficState;
  peers : gmap string PeerInfo;
  updatedPeers : gmap string PeerInfo;
  eventLog : list (PeerInfo * option error)
}.

Definition set_state (s : sender) (t : trafficState) : sender :=
  mkSender (maxUpstreamBytes s) (maxDownstreamBytes s) (sendInterval s) t
    (peers s) (updatedPeers s) (eventLog s).
Definition set_peers (s : sender) (m : gmap string PeerInfo) : sender :=
  mkSender (maxUpstreamBytes s) (maxDownstreamBytes s) (sendInterval s) (state s)
    m (updatedPeers s) (eventLog s).
Definition set_updatedPeers (s : sender) (m : gmap string PeerInfo) : sender :=
  mkSender (maxUpstreamBytes s) (maxDownstreamBytes s) (sendInterval s) (state s)
    (peers s) m (eventLog s).
Definition set_eventLog (s : sender) (l : list (PeerInfo * option error)) : sender :=
  mkSender (maxUpstreamBytes s) (maxDownstreamBytes s) (sendInterval s) (state s)
    (peers s) (updatedPeers s) l.

Definition peersMap (l : list PeerInfo) : gmap string PeerInfo :=
  List.fold_left
    (fun m peer =>
       match WireguardPublicKey peer with
       | None => m
       | Some k => <[k := peer]> m
       end)
    l ∅.

Definition NewPeerTrafficUpdateEventSender
    (settings : option PeerStatisticsSettings) (l : list PeerInfo) : sender :=
  let '(interval, maxUp, maxDown) :=
    match settings with
    | Some c => (TrafficChangeSendEventInterval c, MaxUpstreamTrafficChange c,
                 MaxDownstreamTrafficChange c)
    | None => (DefaultSentEventInterval, 0, 0)
    end in
  mkSender maxUp maxDown interval (mkTraffic 0 0) (peersMap l) ∅ [].

Section EventLog.

(** [push_fails n p]: the [n]-th push on the event log, of [p], fails. *)
Variable push_fails : nat -> PeerInfo -> bool.

Definition Push (peer : PeerInfo) (s : sender) : sender :=
  let err := if push_fails (length (eventLog s)) peer
             then Some (EFailure EventLog) else None in
  set_eventLog s (eventLog s ++ [(peer, err)]).

Definition Add (peer : PeerInfo) : M sender unit :=
  match WireguardPublicKey peer with
  | None => ret tt
  | Some k => fun s => Done tt (set_peers s (<[k := peer]> (peers s)))
  end.

Definition Remove (peer : PeerInfo) : M sender unit :=
  match WireguardPublicKey peer with
  | None => ret tt
  | Some k => fun s =>
      match peers s !! k with
      | Some _ => Done tt (set_peers s (delete k (peers s)))
      | None => Done tt s
      end
  end.

Definition sendUpdates : M sender unit :=
  fun s =>
    if Nat.eqb (size (updatedPeers s)) 0 then Done tt s
    else
      let s1 := List.fold_left (fun s kv => Push (snd kv) s)
                  (map_to_list (updatedPeers s)) s in
      Done tt (set_state (set_updatedPeers s1 ∅) (Reset (state s1))).

(** One iteration of the loop of [Send], for a peer whose key is [k]. *)
Definition account (k : string) (peer : PeerInfo) (s : sender) : sender :=
  match peers s !! k with
  | None => s
  | Some oldPeer =>
      let up :=
        match Upstream peer, Upstream oldPeer with
        | Some new, Some old =>
            wrap64 (UpstreamBytesChange (state s) + wrap64 (new - old))
        | _, _ => UpstreamBytesChange (state s)
        end in
      let down :=
        match Downstream peer, Downstream oldPeer with
        | Some new, Some old =>
            wrap64 (DownstreamBytesChange (state s) + wrap64 (new - old))
        | _, _ => DownstreamBytesChange (state s)
        end in
      set_peers
        (set_updatedPeers (set_state s (mkTraffic up down))
           (<[k := peer]> (updatedPeers s)))
        (<[k := peer]> (peers s))
  end.

Fixpoint accumulate (batch : list PeerInfo) : M sender unit :=
  match batch with
  | [] => ret tt
  | peer :: rest =>
      match WireguardPublicKey peer with
      | None => panic
      | Some k => fun s => accumulate rest (account k peer s)
      end
  end.

Definition Send (batch : list PeerInfo) : M sender unit :=
  do_ accumulate batch;
  fun s =>
    if (0 <? maxUpstreamBytes s)
       && (maxUpstreamBytes s <? UpstreamBytesChange (state s))
    then sendUpdates s
    else if (0 <? maxDownstreamBytes s)
            && (maxDownstreamBytes s <? DownstreamBytesChange (state s))
    then sendUpdates s
    else Done tt s.

(** The states the sender goes through: built by the constructor, then
    driven by [Add], [Remove], [Send] and the ticker's [sendUpdates]. *)
Inductive reachable : sender -> Prop :=
| reach_new settings l :
    reachable (NewPeerTrafficUpdateEventSender settings l)
| reach_Add s peer :
    reachable s -> reachable (final_state (Add peer s))
| reach_Remove s peer :
    reachable s -> reachable (final_state (Remove peer s))
| reach_Send s batch :
    reachable s -> reachable (final_state (Send batch s))
| reach_tick s :
    reachable s -> reachable (final_state (sendUpdates s)).

End EventLog.

(** The peer carries the key [k]. *)
Definition keyed (k : string) (p : PeerInfo) : bool :=
  bool_decide (WireguardPublicKey p = Some k).

(** Pending deltas come with pending peers. *)
Definition budget_backed (s : sender) : Prop :=
  updatedPeers s = ∅ -> state s = mkTraffic 0 0.

(** A threshold is set (positive) and the budget is beyond it. *)
Definition over_threshold (s : sender) : Prop :=
  (0 < maxUpstreamBytes s /\ maxUpstreamBytes s < UpstreamBytesChange (state s))
  \/ (0 < maxDownstreamBytes s
      /\ maxDownstreamBytes s < DownstreamBytesChange (state s)).

End Sender.

(** ** The runtime (runtime.go) *)

Module Runtime.

(** [control.Event]: the type tag and the payload, an [interface{}] that is
    a string or something else. *)
Inductive payload := InfoString (s : string) | InfoOther.

Record Event := mkEvent { EventType : Z; Info : payload }.

(** What the runtime calls on its collaborators. *)
Inductive Call :=
| SetLogLevel (level : string)
| ServicesShutdown
| Starter
| LogError (eventType : Z).

Record TunnelRuntime := mkRuntime {
  RestartRequired : bool;               (* Flags.RestartRequired *)
  calls : list (Call * option error)    (* calls made so far, oldest first *)
}.

Definition set_RestartRequired (r : TunnelRuntime) (b : bool) : TunnelRuntime :=
  mkRuntime b (calls r).

Section Control.

(** The tags [control.EventSetLogLevel] and [control.EventRestart]; their
    values are declared in the control package. *)
Variable EventSetLogLevel : Z.
Variable EventRestart : Z.

(** [fails n c]: what the [n]-th call, being [c], returns. *)
Variable fails : nat -> Call -> option error.

Definition invoke (c : Call) : M TunnelRuntime (option error) :=
  fun r =>
    let e := fails (length (calls r)) c in
    Done e (mkRuntime (RestartRequired r) (calls r ++ [(c, e)])).

Definition Start : M TunnelRuntime (option error) := invoke Starter.

Definition Stop : M TunnelRuntime (option error) := invoke ServicesShutdown.

Definition Restart : M TunnelRuntime (option error) :=
  do err <- Stop;
  match err with
  | Some e => ret (Some e)
  | None =>
      do_ (fun r => Done tt (set_RestartRequired r false));
      do err <- Start;
      match err with
      | Some e => ret (Some e)
      | None => ret None
      end
  end.

(** [zap.L().Fatal] ends the process: the call does not return. *)
Definition ProcessEvents (event : Event) : M TunnelRuntime unit :=
  if EventType event =? EventSetLogLevel
  then match Info event with
       | InfoString level => do_ invoke (SetLogLevel level); ret tt
       | InfoOther => panic
       end
  else if EventType event =? EventRestart
  then do_ (fun r => Done tt (set_RestartRequired r true));
       do err <- Restart;
       match err with
       | Some _ => panic
       | None => ret tt
       end
  else fun r =>
    Done tt (mkRuntime (RestartRequired r)
               (calls r ++ [(LogError (EventType event), None)])).

End Control.

End Runtime.

(** ** Concrete runs *)

Module Scenario.

Import Manager.

Definition addr (a b c d : Z) : Z := ((a * 256 + b) * 256 + c) * 256 + d.

(** The pool serves 10.0.0.5 - 10.0.0.7 under every policy. *)
Definition net (_ : Z) : list Z := [addr 10 0 0 5; addr 10 0 0 6; addr 10 0 0 7].

Definition clock : Z := 1000.

Definition reliable : nat -> Call -> bool := fun _ _ => false.

Definition wireguard_down : nat -> Call -> bool :=
  fun _ c => match c with WgSetPeer _ => true | _ => false end.


Definition storage_stuck : nat -> Call -> bool :=
  fun _ c => match c with StorageDeletePeer _ => true | _ => false end.

Definition fresh : world := mkWorld [] 1%positive ∅ ∅ [] [] 0 true zeroStatistics.

Definition stopped : world := mkWorld [] 1%positive ∅ ∅ [] [] 0 false zeroStatistics.

Definition u1 : PeerInfo :=
  mkPeer 0 (Some "u1"%string) (Some "i1"%string) None (Some "K"%string)
    None 0 None None None None None.

(** A live peer: one row, one reservation, one interface entry. *)
Definition alice : PeerInfo :=
  mkPeer 1 (Some "alice"%string) (Some "phone"%string) None (Some "A"%string)
    (Some (mkIP (Some (addr 10 0 0 5)))) 0 None None None None None.

Definition one_peer : world :=
  mkWorld [alice] 2%positive {[addr 10 0 0 5]} {["A"%string := alice]} [] [] 1
    true zeroStatistics.

Definition alice_moved : PeerInfo :=
  with_Ipv4 alice (Some (mkIP (Some (addr 10 0 0 6)))).


(** A newcomer asking for the address that alice holds. *)
Definition bob : PeerInfo :=
  mkPeer 0 (Some "bob"%string) (Some "laptop"%string) None (Some "B"%string)
    (Some (mkIP (Some (addr 10 0 0 5)))) 0 None None None None None.

Definition no_stats (persisted : list PeerInfo) (_ : gmap string PeerInfo)
  : UpdatePeerStatsResults :=
  mkResults (Z.of_nat (length persisted)) 0 0 0 [] [].

Definition sample (rx : Z) : LinkStatistics := mkLink rx 0 0 0 0 0.

(** The link counter goes down between two sweeps (interface restart). *)
Definition link_reset : world :=
  mkWorld [] 1%positive ∅ ∅ [sample 100; sample 50] [] 0 true zeroStatistics.

Definition link_growing : world :=
  mkWorld [] 1%positive ∅ ∅ [sample 100; sample 150] [] 0 true zeroStatistics.

Definition pushes_ok : nat -> PeerInfo -> bool := fun _ _ => false.

Definition baseline : PeerInfo :=
  mkPeer 1 (Some "u1"%string) (Some "i1"%string) None (Some "K"%string)
    (Some (mkIP (Some (addr 10 0 0 5)))) 0 None None None (Some 0) (Some 0).

Definition busy : PeerInfo :=
  mkPeer 1 (Some "u1"%string) (Some "i1"%string) None (Some "K"%string)
    (Some (mkIP (Some (addr 10 0 0 5)))) 0 None None None (Some 1500) (Some 0).

Definition keyless : PeerInfo :=
  mkPeer 2 (Some "u2"%string) (Some "i2"%string) None None
    None 0 None None None (Some 7) (Some 7).

(** max_upstream = 1000, no downstream threshold. *)
Definition capped : Sender.sender :=
  Sender.NewPeerTrafficUpdateEventSender (Some (Sender.mkSettings 60 1000 0)) [baseline].

Definition uncapped : Sender.sender :=
  Sender.NewPeerTrafficUpdateEventSender None [baseline].

(** alice with an expiration in the past. *)
Definition alice_expired : PeerInfo := with_Expires alice (Some 500).

(** The same expired record as a caller sends it without an address. *)
Definition alice_adrift : PeerInfo := with_Ipv4 alice_expired None.

Definition alice_ids : PeerIdentifiers :=
  mkIds (Some "alice"%string) (Some "phone"%string) None.

(** alice asking for a new public key, same id and address. *)
Definition alice_rekeyed : PeerInfo :=
  mkPeer 1 (Some "alice"%string) (Some "phone"%string) None (Some "A2"%string)
    (Some (mkIP (Some (addr 10 0 0 5)))) 0 None None None None None.

(** A WireGuard that refuses every entry for the key A2. *)
Definition refuses_A2 : nat -> Call -> bool :=
  fun _ c =>
    match c with
    | WgSetPeer p => bool_decide (WireguardPublicKey p = Some "A2"%string)
    | _ => false
    end.

Definition u1_again : PeerInfo :=
  mkPeer 0 (Some "u1"%string) (Some "i1"%string) None (Some "K2"%string)
    None 0 None None None None None.

(** Storage as found at startup: a live peer, an expired one, and a live one
    whose address is outside the range the pool now serves. *)
Definition lapsed : PeerInfo :=
  mkPeer 2 (Some "carol"%string) (Some "tablet"%string) None (Some "C"%string)
    (Some (mkIP (Some (addr 10 0 0 6)))) 0 (Some 500) None None None None.

Definition stray : PeerInfo :=
  mkPeer 3 (Some "dave"%string) (Some "desktop"%string) None (Some "D"%string)
    (Some (mkIP (Some (addr 192 168 9 9)))) 0 None None None None None.

Definition cold : world :=
  mkWorld [alice; lapsed; stray] 4%positive ∅ ∅ [] [] 0 false zeroStatistics.

Definition stray_only : world :=
  mkWorld [stray] 4%positive {[addr 10 0 0 5]} ∅ [] [] 0 false zeroStatistics.

(** The sender's peer after its counter went back to 900. *)
Definition rewound : PeerInfo :=
  mkPeer 1 (Some "u1"%string) (Some "i1"%string) None (Some "K"%string)
    (Some (mkIP (Some (addr 10 0 0 5)))) 0 None None None (Some 900) (Some 0).

Definition stranger : PeerInfo :=
  mkPeer 9 (Some "u9"%string) (Some "i9"%string) None (Some "Z"%string)
    None 0 None None None (Some 5) (Some 5).

(** The runtime: nothing has been called yet; a starter that fails. *)
Definition idle : Runtime.TunnelRuntime := Runtime.mkRuntime true [].

Definition all_fine : nat -> Runtime.Call -> option error := fun _ _ => None.

Definition starter_fails : nat -> Runtime.Call -> option error :=
  fun _ c =>
    match c with
    | Runtime.Starter => Some (EInternalError "no listener")
    | _ => None
    end.

End Scenario.

(** * Properties *)

Import Manager.

(** ** Arithmetic of the 64-bit counters *)

Lemma wrap64_small (z : Z) : - 2 ^ 63 <= z < 2 ^ 63 -> wrap64 z = z.
Proof. intros H. unfold wrap64. rewrite Z.mod_small; lia. Qed.

Lemma wrap64_add_wrap64 (a b : Z) : wrap64 (a + wrap64 b) = wrap64 (a + b).
Proof.
  unfold wrap64.
  replace (a + ((b + 2 ^ 63) mod 2 ^ 64 - 2 ^ 63) + 2 ^ 63)
    with (a + (b + 2 ^ 63) mod 2 ^ 64) by lia.
  rewrite Zplus_mod_idemp_r. f_equal. f_equal. lia.
Qed.

Lemma wrap64_wrapU64 (b : Z) : wrap64 (wrapU64 b) = wrap64 b.
Proof. unfold wrap64, wrapU64. rewrite Zplus_mod_idemp_l. reflexivity. Qed.

(** The upstream counter after one sample has been integrated. *)
Lemma integrate_upstream (st : CachedStatistics) (results : UpdatePeerStatsResults)
    (s : LinkStatistics) :
  StatUpstream (integrate st results s)
  = wrap64 (StatUpstream st + (RxBytes s - previous_rx st)).
Proof.
  unfold integrate, previous_rx. cbn [StatUpstream].
  destruct (LinkStat st) as [prev|].
  - rewrite wrap64_add_wrap64, <- wrap64_add_wrap64, wrap64_wrapU64, wrap64_add_wrap64.
    reflexivity.
  - rewrite wrap64_add_wrap64. f_equal. lia.
Qed.

(** ** Running the monad backwards *)

Lemma bind_inv {S A B} (m : M S A) (k : A -> M S B) (s s' : S) (b : B) :
  bind m k s = Done b s' -> exists a s1, m s = Done a s1 /\ k a s1 = Done b s'.
Proof. unfold bind. destruct (m s) as [a s1|s1]; [eauto|discriminate]. Qed.

Lemma locked_inv {A} (m : M world A) (w w' : world) (a : A) :
  locked m w = Done a w' ->
  exists w1, m (log MutexLock None w) = Done a w1 /\ w' = log MutexUnlock None w1.
Proof.
  unfold locked. destruct (m _) as [a1 w1|w1]; [|discriminate].
  intros H. injection H as -> <-. eauto.
Qed.

Lemma since_app (w w' : world) (l : list entry) :
  trace w' = trace w ++ l -> since w w' = l.
Proof. intros H. unfold since. rewrite H. apply drop_app_length. Qed.

Lemma not_in_filter_id (id : Z) (l : list PeerInfo) (r : PeerInfo) :
  r ∈ List.filter (fun r => negb (has_id id r)) l -> ID r <> id.
Proof.
  rewrite list_elem_of_In, filter_In. intros [_ H] E.
  unfold has_id in H. rewrite E, Z.eqb_refl in H. discriminate.
Qed.

Lemma is_used_false (w : world) (a : Z) : is_used w a = false -> a ∉ used w.
Proof. unfold is_used. apply bool_decide_eq_false. Qed.

Lemma is_used_true (w : world) (a : Z) : is_used w a = true -> a ∈ used w.
Proof. unfold is_used. apply bool_decide_eq_true. Qed.

(** ** Symbolic execution of a manager operation: unfold the collaborator
    calls, then split on every test the code makes. *)

Ltac world_simpl :=
  cbn [log trace rows next_id used iface link allPeersGauge running statistic
       set_rows set_iface set_used set_gauge set_link set_statistic
       fst snd err_of as_error ID Ipv4 with_ID with_Ipv4 with_Updated IP negb
       ipOK dbOK wgOK WireguardPublicKey NetworkPolicy] in *.

Ltac unfold_calls_in H :=
  unfold storage_CreatePeer, storage_DeletePeer, storage_UpdatePeer, storage_GetPeer,
    storage_SearchPeers, wireguard_SetPeer, wireguard_UnsetPeer, ip4am_Alloc, ip4am_Set,
    ip4am_Unset, eventLog_Push, gauge_add, call_, call, bind, ret, panic,
    GetNetworkPolicy in H.

Ltac unfold_calls :=
  unfold storage_CreatePeer, storage_DeletePeer, storage_UpdatePeer, storage_GetPeer,
    storage_SearchPeers, wireguard_SetPeer, wireguard_UnsetPeer, ip4am_Alloc, ip4am_Set,
    ip4am_Unset, eventLog_Push, gauge_add, call_, call, bind, ret, panic,
    GetNetworkPolicy.

Ltac split_on t :=
  match t with
  | context [if ?faulty ?n ?c then _ else _] =>
      match type of faulty with
      | nat -> Call -> bool => destruct (faulty n c) eqn:?
      end
  | context [match WireguardPublicKey ?p with _ => _ end] =>
      destruct (WireguardPublicKey p) eqn:?
  | context [match Ipv4 ?p with _ => _ end] =>
      destruct (Ipv4 p) as [[[?|]]|] eqn:?
  | context [match IP ?p with _ => _ end] => destruct (IP p) eqn:?
  | context [if is_used ?w ?a then _ else _] => destruct (is_used w a) eqn:?
  | context [if negb (in_range ?s ?p ?a) then _ else _] =>
      destruct (in_range s p a) eqn:?
  | context [if negb (ip_Equal ?a ?b) then _ else _] => destruct (ip_Equal a b) eqn:?
  | context [if negb (bool_decide ?P) then _ else _] => destruct (bool_decide P) eqn:?
  | context [if existsb ?f ?l then _ else _] => destruct (existsb f l) eqn:?
  | context [match find ?f ?l with _ => _ end] => destruct (find f l) eqn:?
  | context [if Expired ?n ?p then _ else _] => destruct (Expired n p) eqn:?
  | context [if 0 <? ?x then _ else _] => destruct (Z.ltb_spec 0 x)
  end.

Ltac split_hyp H := let t := type of H in split_on t.
Ltac split_goal := match goal with |- ?g => split_on g end.

Ltac same_outcome H := injection H as ? ?; subst; world_simpl.

Section ManagerFacts.

Variable faulty : nat -> Call -> bool.
Variable subnet : Z -> list Z.
Variable now : Z.

(** *** unsetPeer *)

(** The closure at the end of [unsetPeer], applied to its three arguments. *)
Lemma first_error_three (a b c : option error) :
  first_error [a; b; c]
  = match a with
    | Some _ => a
    | None => match b with Some _ => b | None => c end
    end.
Proof. destruct a, b, c; reflexivity. Qed.

(** With an address, [unsetPeer] calls storage DeletePeer, WireGuard
    UnsetPeer and pool Unset, in this order and whatever each of them
    returns, then pushes PeerRemove. *)
Lemma unsetPeer_with_address (peer : PeerInfo) (ip : xnetIP) (w : world) :
  Ipv4 peer = Some ip ->
  exists (errManager errWireguard errPool errPush : option error) (w' : world),
    unsetPeer faulty peer w
    = Done (first_error [errManager; errPool; errWireguard]) w'
    /\ since w w' = [ (StorageDeletePeer (ID peer), errManager);
                      (WgUnsetPeer peer, errWireguard);
                      (PoolUnset ip, errPool);
                      (EventPush PeerRemove peer, errPush) ].
Proof.
  intros Hip. unfold unsetPeer. rewrite Hip. unfold_calls.
  repeat (split_goal; world_simpl).
  all: do 5 eexists; split; [reflexivity|].
  all: apply since_app; world_simpl; rewrite <- ?app_assoc; reflexivity.
Qed.

(** Without an address the dereference of [peer.Ipv4] panics, after the row
    and the interface entry have been dealt with. *)
Lemma unsetPeer_without_address (peer : PeerInfo) (w : world) :
  Ipv4 peer = None ->
  exists (errManager errWireguard : option error) (w' : world),
    unsetPeer faulty peer w = Crash w'
    /\ since w w' = [ (StorageDeletePeer (ID peer), errManager);
                      (WgUnsetPeer peer, errWireguard) ].
Proof.
  intros Hip. unfold unsetPeer. rewrite Hip. unfold_calls.
  repeat (split_goal; world_simpl).
  all: do 3 eexists; split; [reflexivity|].
  all: apply since_app; world_simpl; rewrite <- ?app_assoc; reflexivity.
Qed.

(** *** setPeer *)






(** The attempt keeps a caller-supplied address in the record. *)
Lemma setPeer_apply_keeps_address (info info' : PeerInfo) (err : option error)
    (a : Z) (w w' : world) :
  Ipv4 info = Some (mkIP (Some a)) ->
  setPeer_apply faulty subnet now info w = Done (info', err) w' ->
  Ipv4 info' = Some (mkIP (Some a)) /\ exists l, trace w' = trace w ++ l.
Proof.
  intros Hip H. unfold setPeer_apply in H. rewrite Hip in H. unfold_calls_in H.
  repeat (split_hyp H; world_simpl); same_outcome H.
  all: split; [assumption|]; rewrite <- ?app_assoc; eauto.
  all: exists []; symmetry; apply app_nil_r.
Qed.

Lemma setPeer_rollback_unsets (peer : PeerInfo) (ip : xnetIP) (w : world) :
  Ipv4 peer = Some ip ->
  exists w' eU l,
    setPeer_rollback faulty peer w = Done tt w'
    /\ trace w' = trace w ++ (PoolUnset ip, eU) :: l.
Proof.
  intros Hip. unfold setPeer_rollback. rewrite Hip. unfold_calls.
  repeat (split_goal; world_simpl).
  all: do 3 eexists; split; [reflexivity|].
  all: world_simpl; rewrite <- ?app_assoc; reflexivity.
Qed.

(** Whatever step failed, the rollback calls pool Unset on an address that
    the caller supplied. *)
Lemma failed_SetPeer_unsets_supplied_address
    (info info' : PeerInfo) (e : error) (a : Z) (w w' : world) :
  running w = true ->
  Ipv4 info = Some (mkIP (Some a)) ->
  SetPeer faulty subnet now info w = Done (info', Some e) w' ->
  exists eU, In (PoolUnset (mkIP (Some a)), eU) (since w w').
Proof.
  intros Hrun Hip H.
  apply bind_inv in H as (r & w0 & Hr & H). unfold is_running in Hr.
  injection Hr as <- <-. rewrite Hrun in H. cbn [negb] in H.
  apply locked_inv in H as (w2 & H & ->).
  apply bind_inv in H as ([p [e1|]] & w1 & Happly & H).
  - apply (setPeer_apply_keeps_address _ _ _ a) in Happly as [Hip' [l1 Ht1]];
      [|exact Hip].
    destruct (setPeer_rollback_unsets p _ w1 Hip') as (w3 & eU & l2 & Hrb & Ht2).
    apply bind_inv in H as ([] & w4 & Hrb' & H). rewrite Hrb in Hrb'.
    injection Hrb' as <-. unfold ret in H. injection H as _ _ <-.
    exists eU. erewrite since_app.
    2:{ cbn [log trace]. rewrite Ht2, Ht1. cbn [log trace].
        rewrite <- !app_assoc. reflexivity. }
    apply in_app_iff. right. apply in_app_iff. right.
    apply in_app_iff. left. left. reflexivity.
  - unfold_calls_in H. repeat (split_hyp H; world_simpl); discriminate.
Qed.

(** *** updatePeer *)

(** An update that asks for an address other than the stored one gets
    through the closure only after the pool has reserved that address. *)
Lemma updatePeer_apply_address (oldPeer newPeer p' : PeerInfo) (pr : progress)
    (nip oip : xnetIP) (w w' : world) :
  Ipv4 newPeer = Some nip ->
  Ipv4 oldPeer = Some oip ->
  ip_Equal nip oip = false ->
  updatePeer_apply faulty subnet now oldPeer newPeer w = Done (p', pr, None) w' ->
  exists a, IP nip = Some a /\ (a ∉ used w) /\ used w' = {[a]} ∪ used w.
Proof.
  intros Hn Ho Hne H. unfold updatePeer_apply in H. rewrite Hn, Ho, Hne in H.
  cbn [negb] in H. unfold_calls_in H.
  repeat (split_hyp H; world_simpl); try discriminate; same_outcome H.
  all: eexists; split; [first [eassumption | reflexivity]|].
  all: split; [|reflexivity].
  all: match goal with H : is_used _ _ = false |- _ =>
         apply is_used_false in H; exact H end.
Qed.

(** C2 (amended). A successful UpdatePeer of a non-expired peer whose new
    address is set and differs from the stored one has reserved the new
    address in the pool, and has released nothing: the pool afterwards is
    the pool before plus the new address, so the old address stays
    reserved. *)
Theorem UpdatePeer_new_address (newPeer p' old : PeerInfo) (nip oip : xnetIP)
    (w w' : world) :
  UpdatePeer faulty subnet now newPeer w = Done (p', None) w' ->
  Expired now newPeer = false ->
  Ipv4 newPeer = Some nip ->
  List.find (has_id (ID newPeer)) (rows w) = Some old ->
  Ipv4 old = Some oip ->
  ip_Equal nip oip = false ->
  exists a, IP nip = Some a
    /\ (a ∈ used w')
    /\ used w' = {[a]} ∪ used w
    /\ (forall b, b ∈ used w -> b ∈ used w').
Proof.
  intros H Hexp Hn Hfind Ho Hne.
  apply bind_inv in H as (r & w0 & Hr & H). unfold is_running in Hr.
  injection Hr as <- <-.
  destruct (running w); cbn [negb] in H; [|discriminate].
  apply locked_inv in H as (w2 & H & ->).
  unfold updatePeer in H. rewrite Hexp in H.
  apply bind_inv in H as (got & w1 & Hget & H).
  assert (Hgot : used w1 = used w /\ (got = Ok old \/ exists e, got = Err e)).
  { unfold storage_GetPeer, call in Hget. world_simpl.
    destruct (faulty _ _); [|rewrite Hfind in Hget];
      injection Hget as <- <-; world_simpl; eauto. }
  destruct Hgot as [Hused1 [->|[e ->]]]; [|discriminate].
  apply bind_inv in H as ([[p1 pr] [e1|]] & w3 & Happly & H).
  { apply bind_inv in H as (u & w4 & _ & H). discriminate. }
  apply (updatePeer_apply_address _ _ _ _ nip oip) in Happly; auto.
  destruct Happly as (a & Ha & Hfree & Hused3).
  assert (Hused2 : used w2 = used w3).
  { unfold_calls_in H. repeat (split_hyp H; world_simpl); same_outcome H; reflexivity. }
  exists a. world_simpl. rewrite Hused2, Hused3, Hused1.
  repeat split; auto; intros; apply elem_of_union; [left|right]; auto.
  apply elem_of_singleton. reflexivity.
Qed.

(** *** The running flag *)

(** C4 (amended). On a stopped manager every public operation returns
    Unavailable("server is shutting down") and leaves the manager as it
    was, mutex included, with one exception: UpdatePeerExpiration called
    without identifiers returns InvalidArgument("no identifiers"), because
    it checks its argument before the flag. *)
Theorem stopped_manager_is_unavailable (r : request) (w : world) :
  running w = false ->
  serve faulty subnet now r w
  = Done (match r with
          | ReqUpdatePeerExpiration None _ =>
              Some (EInvalidArgument "no identifiers")
          | _ => Some unavailable
          end) w.
Proof.
  intros Hrun.
  destruct r as [info|info|id|id|ids| |info|[ids|] expires]; cbn;
    unfold SetPeer, UpdatePeer, GetPeer, UnsetPeer, UnsetPeerByIdentifiers,
      ListPeers, ConnectPeer, UpdatePeerExpiration, is_running, bind, ret;
    rewrite ?Hrun; reflexivity.
Qed.

(** *** ConnectPeer *)

Lemma search_by_identity (info : PeerInfo) (l : list PeerInfo) :
  search (Some (oldPeerShadow info)) l = List.filter (same_identity info) l.
Proof.
  cbn. apply filter_ext. intros r. unfold matches, same_identity. cbn.
  apply andb_true_r.
Qed.


(** *** The sweep *)

Variable statsService_UpdatePeerStats :
  list PeerInfo -> gmap string PeerInfo -> UpdatePeerStatsResults.

Lemma keeps_ret {A} (a : A) : keeps_statistic (ret a).
Proof. intros w. reflexivity. Qed.

Lemma keeps_panic {A} : keeps_statistic (@panic world A).
Proof. intros w. reflexivity. Qed.

Lemma keeps_bind {A B} (m : M world A) (k : A -> M world B) :
  keeps_statistic m -> (forall a, keeps_statistic (k a)) ->
  keeps_statistic (bind m k).
Proof.
  intros Hm Hk w. unfold bind. specialize (Hm w).
  destruct (m w) as [a w1|w1]; cbn in *; [|exact Hm].
  rewrite Hk. exact Hm.
Qed.

Lemma keeps_call {A} (c : Call) (sem : world -> result A * world) :
  (forall w, statistic (snd (sem w)) = statistic w) ->
  keeps_statistic (call faulty c sem).
Proof.
  intros Hsem w. unfold call. destruct (faulty _ _); cbn; [reflexivity|].
  specialize (Hsem w). destruct (sem w) as [r w1]. exact Hsem.
Qed.

Lemma keeps_call_ (c : Call) (sem : world -> result unit * world) :
  (forall w, statistic (snd (sem w)) = statistic w) ->
  keeps_statistic (call_ faulty c sem).
Proof.
  intros Hsem. unfold call_. apply keeps_bind; [apply keeps_call, Hsem|].
  intros a. apply keeps_ret.
Qed.

Lemma keeps_DeletePeer (id : Z) : keeps_statistic (storage_DeletePeer faulty id).
Proof. apply keeps_call_. reflexivity. Qed.

Lemma keeps_wg_UnsetPeer (p : PeerInfo) :
  keeps_statistic (wireguard_UnsetPeer faulty p).
Proof. apply keeps_call_. intros w. destruct (WireguardPublicKey p); reflexivity. Qed.

Lemma keeps_Unset (ip : xnetIP) : keeps_statistic (ip4am_Unset faulty ip).
Proof.
  apply keeps_call_. intros w. destruct (IP ip) as [a|]; [|reflexivity].
  destruct (is_used w a); reflexivity.
Qed.

Lemma keeps_push (t : EventType) (p : PeerInfo) :
  keeps_statistic (eventLog_Push faulty t p).
Proof.
  unfold eventLog_Push. apply keeps_bind; [|intros; apply keeps_ret].
  apply keeps_call_. reflexivity.
Qed.

Lemma keeps_unsetPeer (peer : PeerInfo) : keeps_statistic (unsetPeer faulty peer).
Proof.
  unfold unsetPeer.
  apply keeps_bind; [apply keeps_DeletePeer|intros eM].
  apply keeps_bind; [apply keeps_wg_UnsetPeer|intros eW].
  destruct (Ipv4 peer) as [ip|]; [|apply keeps_panic].
  apply keeps_bind; [apply keeps_Unset|intros eP].
  apply keeps_bind; [intros w; reflexivity|intros _].
  apply keeps_bind; [apply keeps_push|intros _].
  apply keeps_ret.
Qed.

Lemma keeps_GetPeers : keeps_statistic (wireguard_GetPeers faulty).
Proof. apply keeps_call. reflexivity. Qed.

Lemma keeps_peers : keeps_statistic (peers faulty).
Proof. apply keeps_call. reflexivity. Qed.

Lemma keeps_for_each {A} (f : A -> M world unit) (l : list A) :
  (forall x, keeps_statistic (f x)) -> keeps_statistic (for_each f l).
Proof.
  intros Hf. induction l as [|x l IH]; cbn.
  - apply keeps_ret.
  - apply keeps_bind; [apply Hf|]. intros _. exact IH.
Qed.

Lemma keeps_Done {A} (m : M world A) (Hm : keeps_statistic m)
    (w w' : world) (a : A) :
  m w = Done a w' -> statistic w' = statistic w.
Proof. intros H. specialize (Hm w). rewrite H in Hm. exact Hm. Qed.

(** What a completed sweep does to the cached statistics: nothing (manager
    stopped, or the peers could not be listed), or it integrates the link
    sample it has read. *)
Lemma sweep_statistic (w w' : world) :
  updatePeerStats faulty statsService_UpdatePeerStats w = Done tt w' ->
  statistic w' = statistic w
  \/ exists s results, hd_error (link w) = Some s
        /\ statistic w' = integrate (statistic w) results s.
Proof.
  intros H. unfold updatePeerStats in H.
  apply bind_inv in H as (r & w0 & Hr & H). unfold is_running in Hr.
  injection Hr as <- <-.
  destruct (running w); cbn [negb] in H.
  2:{ unfold ret in H. injection H as <-. left. reflexivity. }
  apply locked_inv in H as (wl & H & ->).
  apply bind_inv in H as (ls & w1 & Hls & H).
  apply bind_inv in H as (wg & w2 & Hwg & H).
  apply bind_inv in H as (found & w3 & Hfound & H).
  apply (keeps_Done _ keeps_GetPeers) in Hwg.
  apply (keeps_Done _ keeps_peers) in Hfound.
  assert (Hst1 : statistic w1 = statistic w
                 /\ (forall s, ls = Ok s -> hd_error (link w) = Some s)).
  { unfold wireguard_GetLinkStatistic, call in Hls. cbn [log trace link] in Hls.
    destruct (faulty _ _).
    - injection Hls as <- <-. split; [reflexivity|discriminate].
    - destruct (link w) as [|s rest]; injection Hls as <- <-; cbn.
      + split; [reflexivity|discriminate].
      + split; [reflexivity|]. intros s0 Hs0. injection Hs0 as ->. reflexivity. }
  destruct Hst1 as [Hst1 Hhd].
  destruct found as [persisted|e].
  2:{ unfold ret in H. injection H as <-. left. cbn. congruence. }
  apply bind_inv in H as ([] & w4 & Hexp & H).
  apply bind_inv in H as ([] & w5 & Hupd & H).
  apply keeps_Done in Hexp.
  2:{ apply keeps_for_each. intros p. apply keeps_bind; [apply keeps_unsetPeer|].
      intros _. apply keeps_ret. }
  apply keeps_Done in Hupd; [|apply keeps_for_each, keeps_push].
  destruct ls as [s|e]; [|discriminate].
  unfold bind, storage_SetUpstreamMetric, storage_SetDownstreamMetric in H.
  injection H as <-. right. exists s. eexists. split; [auto|].
  cbn [statistic log set_statistic]. f_equal. congruence.
Qed.

(** C3 (amended). After a sweep that completes, the cached upstream counter
    is either unchanged or the previous counter plus the difference between
    the RxBytes sample just read and the one cached before (zero on the
    first sweep), reduced to a signed 64-bit value; in the latter case, when
    that sum fits in 64 bits, the counter has not gone down exactly when the
    sample has not.  So the counter is non-decreasing across a sweep whenever
    the sample just read is not below the cached one and the sum fits. *)
Theorem sweep_upstream (w w' : world) :
  updatePeerStats faulty statsService_UpdatePeerStats w = Done tt w' ->
  (statistic w' = statistic w
   \/ exists s, hd_error (link w) = Some s
        /\ StatUpstream (statistic w')
           = wrap64 (StatUpstream (statistic w)
                     + (RxBytes s - previous_rx (statistic w)))
        /\ (- 2 ^ 63 <= StatUpstream (statistic w)
                        + (RxBytes s - previous_rx (statistic w)) < 2 ^ 63 ->
            (StatUpstream (statistic w) <= StatUpstream (statistic w')
             <-> previous_rx (statistic w) <= RxBytes s)))
  /\ ((forall s, hd_error (link w) = Some s ->
         previous_rx (statistic w) <= RxBytes s
         /\ - 2 ^ 63 <= StatUpstream (statistic w)
         /\ StatUpstream (statistic w)
            + (RxBytes s - previous_rx (statistic w)) < 2 ^ 63) ->
      StatUpstream (statistic w) <= StatUpstream (statistic w')).
Proof.
  intros H. apply sweep_statistic in H.
  assert (Hshape :
    statistic w' = statistic w
    \/ exists s, hd_error (link w) = Some s
         /\ StatUpstream (statistic w')
            = wrap64 (StatUpstream (statistic w)
                      + (RxBytes s - previous_rx (statistic w)))).
  { destruct H as [H|(s & results & Hhd & H)]; [left; exact H|].
    right. exists s. split; [exact Hhd|]. rewrite H. apply integrate_upstream. }
  split.
  - destruct Hshape as [Hsame|(s & Hhd & Hup)]; [left; exact Hsame|].
    right. exists s. split; [exact Hhd|]. split; [exact Hup|].
    intros Hfits. rewrite Hup, wrap64_small by exact Hfits. lia.
  - intros Hsteady. destruct Hshape as [->|(s & Hhd & ->)]; [lia|].
    specialize (Hsteady s Hhd). rewrite wrap64_small; lia.
Qed.

End ManagerFacts.

(** ** The traffic event sender *)

Import Sender.

Section SenderFacts.

Variable push_fails : nat -> PeerInfo -> bool.

(** Pushing a list of pending entries appends one record per entry to the
    event log and touches nothing else. *)
Lemma push_all_effect (l : list (string * PeerInfo)) (s : sender) :
  let s1 := List.fold_left (fun s kv => Push push_fails (snd kv) s) l s in
  exists pushed,
    eventLog s1 = eventLog s ++ pushed
    /\ List.map fst pushed = List.map snd l
    /\ state s1 = state s
    /\ updatedPeers s1 = updatedPeers s
    /\ peers s1 = peers s
    /\ maxUpstreamBytes s1 = maxUpstreamBytes s
    /\ maxDownstreamBytes s1 = maxDownstreamBytes s.
Proof.
  revert s. induction l as [|[k p] l IH]; intros s; cbn.
  - exists []. rewrite app_nil_r. repeat split; reflexivity.
  - destruct (IH (Push push_fails p s))
      as (pushed & Hlog & Hmap & Hst & Hup & Hp & Hmu & Hmd).
    eexists (_ :: pushed). rewrite Hlog. unfold Push at 2. cbn.
    rewrite <- app_assoc. cbn. split; [reflexivity|].
    cbn. rewrite Hmap. repeat split; assumption.
Qed.

Lemma sendUpdates_effect (s : sender) :
  budget_backed s ->
  exists s' pushed,
    sendUpdates push_fails s = Done tt s'
    /\ eventLog s' = eventLog s ++ pushed
    /\ List.map fst pushed = List.map snd (map_to_list (updatedPeers s))
    /\ length pushed = size (updatedPeers s)
    /\ state s' = mkTraffic 0 0
    /\ updatedPeers s' = ∅.
Proof.
  intros Hinv. unfold sendUpdates.
  destruct (Nat.eqb_spec (size (updatedPeers s)) 0) as [Hz|Hnz].
  - apply map_size_empty_iff in Hz.
    exists s, []. rewrite app_nil_r, Hz, map_to_list_empty, map_size_empty.
    repeat split; auto.
  - destruct (push_all_effect (map_to_list (updatedPeers s)) s)
      as (pushed & Hlog & Hmap & Hst & Hup & Hp & Hmu & Hmd).
    eexists _, pushed. split; [reflexivity|]. cbn.
    repeat split; try assumption.
    rewrite <- (length_map fst pushed), Hmap, length_map.
    apply length_map_to_list.
Qed.

(** *** The budget is never ahead of the pending peers *)

Lemma account_backed (k : string) (p : PeerInfo) (s : sender) :
  budget_backed s -> budget_backed (account k p s).
Proof.
  unfold budget_backed, account. intros H.
  destruct (peers s !! k); [|exact H]. cbn. intros He.
  exfalso. exact (insert_non_empty (updatedPeers s) k p He).
Qed.


Lemma accumulate_backed (batch : list PeerInfo) (s : sender) :
  budget_backed s -> budget_backed (final_state (accumulate batch s)).
Proof.
  revert s. induction batch as [|p batch IH]; intros s H; cbn.
  - exact H.
  - destruct (WireguardPublicKey p) as [k|]; cbn; [|exact H].
    apply IH, account_backed, H.
Qed.


Lemma sendUpdates_backed (s : sender) :
  budget_backed s -> budget_backed (final_state (sendUpdates push_fails s)).
Proof.
  intros H.
  destruct (sendUpdates_effect s H) as (s' & pushed & -> & _ & _ & _ & Hst & _).
  cbn. intros _. exact Hst.
Qed.

Lemma Send_backed (batch : list PeerInfo) (s : sender) :
  budget_backed s -> budget_backed (final_state (Send push_fails batch s)).
Proof.
  intros H. unfold Send, bind.
  pose proof (accumulate_backed batch s H) as Hacc.
  destruct (accumulate batch s) as [[] s1|s1]; cbn in Hacc; [|exact Hacc].
  repeat match goal with |- context [if ?b then _ else _] => destruct b end;
    auto using sendUpdates_backed.
Qed.

Lemma reachable_backed (s : sender) : reachable push_fails s -> budget_backed s.
Proof.
  induction 1 as [settings l|s p _ IH|s p _ IH|s batch _ IH|s _ IH].
  - unfold NewPeerTrafficUpdateEventSender. destruct settings; intros _; reflexivity.
  - unfold Add. destruct (WireguardPublicKey p); exact IH.
  - unfold Remove. destruct (WireguardPublicKey p); [|exact IH].
    destruct (peers s !! _); exact IH.
  - apply Send_backed, IH.
  - apply sendUpdates_backed, IH.
Qed.

(** C6. A flush of the sender, from any state the sender can be in, pushes
    exactly one event per entry of updatedPeers (the pushed records are the
    map's values, one each), and leaves both delta budgets at zero and
    updatedPeers empty. *)
Theorem flush_emits_pending_and_resets (s : sender) :
  reachable push_fails s ->
  exists s' pushed,
    sendUpdates push_fails s = Done tt s'
    /\ eventLog s' = eventLog s ++ pushed
    /\ List.map fst pushed = List.map snd (map_to_list (updatedPeers s))
    /\ length pushed = size (updatedPeers s)
    /\ UpstreamBytesChange (state s') = 0
    /\ DownstreamBytesChange (state s') = 0
    /\ updatedPeers s' = ∅.
Proof.
  intros Hr. apply reachable_backed in Hr.
  destruct (sendUpdates_effect s Hr) as (s' & pushed & H1 & H2 & H3 & H4 & H5 & H6).
  exists s', pushed. rewrite H5. repeat split; assumption.
Qed.


(** C9. Send panics on every batch that contains a peer without a WireGuard
    public key, while Add and Remove return for such a peer and leave the
    sender as it was. *)
Theorem Send_panics_on_missing_key :
  (forall (batch : list PeerInfo) (s : sender),
      (exists p, In p batch /\ WireguardPublicKey p = None) ->
      crashed (Send push_fails batch s) = true)
  /\ (forall (p : PeerInfo) (s : sender),
      WireguardPublicKey p = None ->
      Add p s = Done tt s /\ Remove p s = Done tt s).
Proof.
  split.
  - intros batch s (p & Hin & Hk). unfold Send, bind.
    assert (Hc : exists s', accumulate batch s = Crash s').
    { revert s. induction batch as [|q batch IH]; intros s; [destruct Hin|].
      cbn. destruct (WireguardPublicKey q) eqn:Hq.
      - destruct Hin as [->|Hin]; [congruence|]. apply IH, Hin.
      - eexists. reflexivity. }
    destruct Hc as [s' ->]. reflexivity.
  - intros p s Hk. unfold Add, Remove. rewrite Hk. split; reflexivity.
Qed.

End SenderFacts.

(** ** The theorems on concrete runs *)

Import Scenario.

(** *** unsetPeer *)

(** C8. For a peer that carries an address, [unsetPeer] calls storage
    DeletePeer, WireGuard UnsetPeer and pool Unset, in this order and whatever
    each of them returns, pushes PeerRemove, and returns the storage error if
    there is one, else the pool error if there is one, else the WireGuard
    result.  For a peer without address it panics on [*peer.Ipv4] after the
    first two removals: pool Unset is not attempted and nothing is returned.
    UpdatePeer reaches that with an expired record sent without address:
    alice's row and interface entry go, her reservation stays. *)
Theorem unsetPeer_removals_and_result :
  (forall (faulty : nat -> Call -> bool) (peer : PeerInfo) (w : world),
     match Ipv4 peer with
     | Some ip =>
         exists (errManager errWireguard errPool errPush : option error) (w' : world),
           unsetPeer faulty peer w
           = Done (match errManager with
                   | Some _ => errManager
                   | None => match errPool with
                             | Some _ => errPool
                             | None => errWireguard
                             end
                   end) w'
           /\ since w w' = [ (StorageDeletePeer (ID peer), errManager);
                             (WgUnsetPeer peer, errWireguard);
                             (PoolUnset ip, errPool);
                             (EventPush PeerRemove peer, errPush) ]
     | None =>
         exists (errManager errWireguard : option error) (w' : world),
           unsetPeer faulty peer w = Crash w'
           /\ since w w' = [ (StorageDeletePeer (ID peer), errManager);
                             (WgUnsetPeer peer, errWireguard) ]
     end)
  /\ (exists w',
        UpdatePeer reliable net clock alice_adrift one_peer = Crash w'
        /\ Expired clock alice_adrift = true
        /\ Ipv4 alice_adrift = None
        /\ since one_peer w'
           = [ (MutexLock, None);
               (StorageDeletePeer 1, None);
               (WgUnsetPeer alice_adrift, None);
               (MutexUnlock, None) ]
        /\ rows w' = []
        /\ iface w' !! "A"%string = None
        /\ is_used w' (addr 10 0 0 5) = true
        /\ allPeersGauge w' = allPeersGauge one_peer).
Proof.
  split.
  - intros faulty peer w. destruct (Ipv4 peer) as [ip|] eqn:Hip.
    + destruct (unsetPeer_with_address faulty peer ip w Hip)
        as (eM & eW & eP & eE & w' & Hrun & Htrace).
      exists eM, eW, eP, eE, w'. rewrite <- first_error_three. auto.
    + apply unsetPeer_without_address. exact Hip.
  - eexists. split; [vm_compute; reflexivity|].
    repeat split; vm_compute; reflexivity.
Qed.

(** *** SetPeer against a WireGuard that refuses the peer *)



(** A record that arrives with id 1 and alice's address: nothing is created,
    and the rollback deletes alice's row. *)
Lemma failed_SetPeer_deletes_supplied_id :
  exists w',
    SetPeer reliable net clock (with_ID bob 1) one_peer
    = Done (with_ID bob 1, Some ErrAddressInUse) w'
    /\ rows one_peer = [alice]
    /\ rows w' = []
    /\ List.map fst (since one_peer w')
       = [MutexLock; PoolSet (mkIP (Some (addr 10 0 0 5))) 0;
          PoolUnset (mkIP (Some (addr 10 0 0 5))); StorageDeletePeer 1; MutexUnlock].
Proof.
  eexists. split; [vm_compute; reflexivity|].
  repeat split; vm_compute; reflexivity.
Qed.

(** C10. A failed SetPeer on a running manager always calls pool Unset on the
    address the caller supplied, also when the step that failed is the pool
    reservation itself; so there is a run (bob asks for the address alice
    holds, pool Set refuses) in which the failed call releases alice's
    reservation while her row and her interface entry stay. *)
Theorem failed_SetPeer_releases_foreign_reservation :
  (forall faulty subnet now (info info' : PeerInfo) (e : error) (a : Z)
          (w w' : world),
      running w = true ->
      Ipv4 info = Some (mkIP (Some a)) ->
      SetPeer faulty subnet now info w = Done (info', Some e) w' ->
      exists eU, In (PoolUnset (mkIP (Some a)), eU) (since w w'))
  /\ (exists w',
        SetPeer reliable net clock bob one_peer = Done (bob, Some ErrAddressInUse) w'
        /\ Ipv4 bob = Ipv4 alice
        /\ is_used one_peer (addr 10 0 0 5) = true
        /\ is_used w' (addr 10 0 0 5) = false
        /\ rows w' = [alice]
        /\ iface w' !! "A"%string = Some alice
        /\ List.map fst (since one_peer w')
           = [MutexLock; PoolSet (mkIP (Some (addr 10 0 0 5))) 0;
              PoolUnset (mkIP (Some (addr 10 0 0 5))); MutexUnlock]).
Proof.
  split.
  - intros faulty subnet now. apply failed_SetPeer_unsets_supplied_address.
  - eexists. split; [vm_compute; reflexivity|].
    repeat split; vm_compute; reflexivity.
Qed.

Lemma failed_SetPeer_releases_foreign_reservation_witness :
  exists eU,
    In (PoolUnset (mkIP (Some (addr 10 0 0 5))), eU)
       (since one_peer (final_state (SetPeer reliable net clock bob one_peer))).
Proof.
  apply (proj1 failed_SetPeer_releases_foreign_reservation reliable net clock
           bob bob ErrAddressInUse (addr 10 0 0 5) one_peer _ eq_refl eq_refl).
  vm_compute. reflexivity.
Defined.

(** *** UpdatePeer to another address *)

(** alice moves from 10.0.0.5 to 10.0.0.6: the update succeeds and 10.0.0.5
    is still reserved. *)
Lemma UpdatePeer_keeps_old_reservation :
  exists p' w',
    UpdatePeer reliable net clock alice_moved one_peer = Done (p', None) w'
    /\ Expired clock alice_moved = false
    /\ List.find (has_id (ID alice_moved)) (rows one_peer) = Some alice
    /\ Ipv4 alice = Some (mkIP (Some (addr 10 0 0 5)))
    /\ Ipv4 alice_moved = Some (mkIP (Some (addr 10 0 0 6)))
    /\ is_used w' (addr 10 0 0 6) = true
    /\ is_used w' (addr 10 0 0 5) = true.
Proof.
  eexists _, _. split; [vm_compute; reflexivity|].
  repeat split; vm_compute; reflexivity.
Qed.

Lemma UpdatePeer_new_address_witness :
  let o := UpdatePeer reliable net clock alice_moved one_peer in
  exists a, IP (mkIP (Some (addr 10 0 0 6))) = Some a
    /\ (a ∈ used (final_state o))
    /\ used (final_state o) = {[a]} ∪ used one_peer
    /\ (forall b, b ∈ used one_peer -> b ∈ used (final_state o)).
Proof.
  intros o.
  apply (UpdatePeer_new_address reliable net clock alice_moved
           (with_Updated alice_moved (Some clock)) alice
           (mkIP (Some (addr 10 0 0 6))) (mkIP (Some (addr 10 0 0 5)))
           one_peer (final_state o)).
  - vm_compute. reflexivity.
  - reflexivity.
  - reflexivity.
  - reflexivity.
  - reflexivity.
  - reflexivity.
Defined.

(** *** The sweep over a link counter that restarts *)

(** Two sweeps in a row, RxBytes 100 then 50: the cached upstream counter
    goes from 100 down to 50. *)
Lemma upstream_drops_on_link_reset :
  exists w1 w2,
    updatePeerStats reliable no_stats link_reset = Done tt w1
    /\ updatePeerStats reliable no_stats w1 = Done tt w2
    /\ StatUpstream (statistic w1) = 100
    /\ StatUpstream (statistic w2) = 50.
Proof.
  eexists _, _. split; [vm_compute; reflexivity|].
  split; [vm_compute; reflexivity|]. split; reflexivity.
Qed.

Lemma sweep_upstream_witness :
  let w1 := final_state (updatePeerStats reliable no_stats link_growing) in
  let w2 := final_state (updatePeerStats reliable no_stats w1) in
  StatUpstream (statistic w1) <= StatUpstream (statistic w2).
Proof.
  intros w1 w2.
  apply (sweep_upstream reliable no_stats w1 w2).
  - vm_compute. reflexivity.
  - intros s Hs. vm_compute in Hs. injection Hs as <-. vm_compute.
    repeat split; discriminate.
Defined.

(** *** A stopped manager *)

(** UpdatePeerExpiration without identifiers on a stopped manager: the answer
    is InvalidArgument, not Unavailable. *)
Lemma UpdatePeerExpiration_checks_identifiers_first :
  running stopped = false
  /\ serve reliable net clock (ReqUpdatePeerExpiration None None) stopped
     = Done (Some (EInvalidArgument "no identifiers")) stopped
  /\ serve reliable net clock (ReqUpdatePeerExpiration None None) stopped
     <> Done (Some unavailable) stopped.
Proof. repeat split. discriminate. Qed.

Lemma stopped_manager_is_unavailable_witness :
  serve reliable net clock (ReqSetPeer u1) stopped = Done (Some unavailable) stopped.
Proof.
  exact (stopped_manager_is_unavailable reliable net clock (ReqSetPeer u1) stopped
           eq_refl).
Defined.

(** *** Reconnecting with the same identity *)


(** *** The sender: a pending update, the threshold flush, a keyless peer *)

(** No threshold is configured: the submitted peer stays pending until the
    ticker's flush pushes it. *)
Lemma flush_emits_pending_and_resets_witness :
  let pending := final_state (Send pushes_ok [busy] uncapped) in
  exists s' pushed,
    sendUpdates pushes_ok pending = Done tt s'
    /\ eventLog s' = eventLog pending ++ pushed
    /\ List.map fst pushed = List.map snd (map_to_list (updatedPeers pending))
    /\ length pushed = size (updatedPeers pending)
    /\ UpstreamBytesChange (state s') = 0
    /\ DownstreamBytesChange (state s') = 0
    /\ updatedPeers s' = ∅.
Proof.
  intros pending.
  apply (flush_emits_pending_and_resets pushes_ok pending).
  apply reach_Send. apply (reach_new pushes_ok None [baseline]).
Defined.


Lemma Send_panics_on_missing_key_witness :
  crashed (Send pushes_ok [busy; keyless] capped) = true
  /\ Add keyless capped = Done tt capped
  /\ Remove keyless capped = Done tt capped.
Proof.
  split.
  - apply (proj1 (Send_panics_on_missing_key pushes_ok)).
    exists keyless. split; [right; left; reflexivity|reflexivity].
  - apply (proj2 (Send_panics_on_missing_key pushes_ok) keyless capped).
    reflexivity.
Defined.

(** * More of the manager *)

Ltac outcome_eq H :=
  first [injection H as ? ? | injection H as ?]; subst; world_simpl.

Ltac world_eq H :=
  apply (f_equal final_state) in H; cbn [final_state] in H; subst; world_simpl.

Section UnsetFacts.

Variable faulty : nat -> Call -> bool.

(** *** unsetPeer *)

Ltac fault_clash :=
  match goal with
  | Hf : forall n, faulty n ?c = false, H : faulty _ ?c = true |- _ =>
      rewrite Hf in H; discriminate
  end.

(** X3. Each of the three removals takes effect when its own call goes through,
    whatever happens to the other two. *)
Theorem unsetPeer_best_effort (peer : PeerInfo) (a : Z) (w w' : world)
    (e : option error) :
  Ipv4 peer = Some (mkIP (Some a)) ->
  unsetPeer faulty peer w = Done e w' ->
  ((forall n, faulty n (StorageDeletePeer (ID peer)) = false) ->
     forall r, r ∈ rows w' -> ID r <> ID peer)
  /\ ((forall n, faulty n (PoolUnset (mkIP (Some a))) = false) -> a ∉ used w')
  /\ ((forall n, faulty n (WgUnsetPeer peer) = false) ->
      forall k, WireguardPublicKey peer = Some k -> iface w' !! k = None)
  /\ allPeersGauge w' = allPeersGauge w - 1.
Proof.
  intros Hip H. unfold unsetPeer in H. rewrite Hip in H. unfold_calls_in H.
  repeat (split_hyp H; world_simpl); same_outcome H.
  all: repeat split; try lia; intros Hf; try fault_clash; intros.
  all: eauto using not_in_filter_id, is_used_false.
  all: try (rewrite elem_of_difference, elem_of_singleton; tauto).
  all: try discriminate.
  all: match goal with H : Some _ = Some _ |- _ => injection H as <- end;
       apply lookup_delete_eq.
Qed.

(** X4. A nil result of UnsetPeer means the peer is gone from all three. *)
Theorem UnsetPeer_nil_means_removed (id : Z) (w w' : world) :
  UnsetPeer faulty id w = Done None w' ->
  exists peer a k,
    List.find (has_id id) (rows w) = Some peer
    /\ Ipv4 peer = Some (mkIP (Some a))
    /\ WireguardPublicKey peer = Some k
    /\ (forall r, r ∈ rows w' -> ID r <> id)
    /\ (a ∈ used w) /\ (a ∉ used w')
    /\ iface w' !! k = None.
Proof.
  intros H.
  apply bind_inv in H as (r & w0 & Hr & H). unfold is_running in Hr.
  injection Hr as <- <-.
  destruct (running w); cbn [negb] in H; [|discriminate].
  apply locked_inv in H as (w2 & H & ->).
  apply bind_inv in H as (got & w1 & Hget & H).
  unfold storage_GetPeer, call in Hget. world_simpl.
  destruct (faulty _ _); [injection Hget as <- <-; discriminate|].
  destruct (find (has_id id) (rows w)) as [peer|] eqn:Hfind;
    cbn in Hget; injection Hget as <- <-; [|discriminate].
  assert (Hid : ID peer = id).
  { destruct (List.find_some _ _ Hfind) as [_ Hh]. unfold has_id in Hh. lia. }
  unfold unsetPeer in H. unfold_calls_in H.
  repeat (split_hyp H; world_simpl); try discriminate; outcome_eq H;
    try discriminate.
  all: do 3 eexists; split; [reflexivity|].
  all: repeat split; try eassumption; try reflexivity.
  all: try apply not_in_filter_id.
  all: eauto using is_used_true.
  all: try (rewrite elem_of_difference, elem_of_singleton; tauto).
  all: apply lookup_delete_eq.
Qed.

(** *** Removal by identifiers *)

(** [findPeerByIdentifiers] hands out a peer only when it is the single row
    matching the identifiers, and it changes nothing but the trace. *)
Lemma findPeerByIdentifiers_sound (identifiers : option PeerIdentifiers)
    (res : result PeerInfo) (w w' : world) :
  findPeerByIdentifiers faulty identifiers w = Done res w' ->
  rows w' = rows w /\ used w' = used w /\ iface w' = iface w
  /\ allPeersGauge w' = allPeersGauge w
  /\ match res with
     | Ok p => exists ids, identifiers = Some ids
                 /\ List.filter (matches (query_of ids)) (rows w) = [p]
     | Err _ => True
     end.
Proof.
  unfold findPeerByIdentifiers. destruct identifiers as [ids|].
  - unfold bind, storage_SearchPeers, call.
    destruct (faulty _ _); cbn [search log rows err_of].
    + intros H. injection H as <- <-. cbn. auto.
    + destruct (List.filter (matches (query_of ids)) (rows w)) as [|p [|q l]] eqn:Hf;
        intros H; injection H as <- <-; cbn; repeat split; eauto.
  - intros H. injection H as <- <-. auto.
Qed.

(** X22. UnsetPeerByIdentifiers removes nothing unless exactly one stored peer
    matches the identifiers: otherwise it returns an error and storage, pool,
    interface and gauge are as before. *)
Theorem UnsetPeerByIdentifiers_needs_one_match
    (identifiers : option PeerIdentifiers) (e : option error) (w w' : world) :
  UnsetPeerByIdentifiers faulty identifiers w = Done e w' ->
  (forall ids p, identifiers = Some ids ->
     List.filter (matches (query_of ids)) (rows w) <> [p]) ->
  e <> None
  /\ rows w' = rows w /\ used w' = used w /\ iface w' = iface w
  /\ allPeersGauge w' = allPeersGauge w.
Proof.
  intros H Hnot.
  apply bind_inv in H as (r & w0 & Hr & H). unfold is_running in Hr.
  injection Hr as <- <-.
  destruct (running w); cbn [negb] in H.
  2:{ unfold ret in H. injection H as <- <-. repeat split. discriminate. }
  apply locked_inv in H as (w2 & H & ->).
  apply bind_inv in H as (res & w1 & Hfind & H).
  apply findPeerByIdentifiers_sound in Hfind as (Hr & Hu & Hi & Hg & Hres).
  destruct res as [p|e0].
  - destruct Hres as (ids & Hids & Hf). destruct (Hnot ids p Hids Hf).
  - unfold ret in H. injection H as <- <-. world_simpl.
    repeat split; try assumption. discriminate.
Qed.

End UnsetFacts.

Section MoreManagerFacts.

Variable faulty : nat -> Call -> bool.
Variable subnet : Z -> list Z.
Variable now : Z.

(** *** setPeer *)

(** What a successful attempt has done. *)
Lemma setPeer_apply_success (info info' : PeerInfo) (w w' : world) :
  setPeer_apply faulty subnet now info w = Done (info', None) w' ->
  exists a k,
    Expired now info = false
    /\ Ipv4 info' = Some (mkIP (Some a))
    /\ ID info' = Z.pos (next_id w)
    /\ WireguardPublicKey info' = Some k
    /\ info' = with_ID (with_Ipv4 info (Ipv4 info')) (ID info')
    /\ rows w' = rows w ++ [info']
    /\ next_id w' = Pos.succ (next_id w)
    /\ used w' = {[a]} ∪ used w
    /\ (a ∉ used w)
    /\ iface w' = <[k := info']> (iface w)
    /\ allPeersGauge w' = allPeersGauge w.
Proof.
  intros H. unfold setPeer_apply in H. unfold_calls_in H.
  repeat (split_hyp H; world_simpl); try discriminate; same_outcome H.
  all: do 2 eexists; repeat split; try reflexivity; try eassumption.
  all: try (destruct info; cbn in *; congruence).
  all: try match goal with H : is_used _ _ = false |- _ => apply is_used_false in H; exact H end.
  all: try match goal with H : find _ _ = Some _ |- _ =>
    apply find_some in H as [_ H]; apply negb_true_iff in H; apply is_used_false in H; exact H end.
Qed.

(** X1. A SetPeer that returns nil has stamped the record with a positive id
    and an address; the record is the row appended to storage, its address
    is reserved, the interface holds it under its key, the gauge went up by
    one and a PeerAdd event was pushed. *)
Theorem SetPeer_success (info info' : PeerInfo) (w w' : world) :
  SetPeer faulty subnet now info w = Done (info', None) w' ->
  exists a k ePush,
    0 < ID info'
    /\ Ipv4 info' = Some (mkIP (Some a))
    /\ WireguardPublicKey info' = Some k
    /\ rows w' = rows w ++ [info']
    /\ (a ∈ used w')
    /\ iface w' !! k = Some info'
    /\ allPeersGauge w' = allPeersGauge w + 1
    /\ In (EventPush PeerAdd info', ePush) (since w w').
Proof.
  intros H.
  apply bind_inv in H as (r & w0 & Hr & H). unfold is_running in Hr.
  injection Hr as <- <-.
  destruct (running w); cbn [negb] in H; [|discriminate].
  apply locked_inv in H as (w2 & H & ->).
  apply bind_inv in H as ([p [e1|]] & w1 & Happly & H).
  { apply bind_inv in H as (u & w3 & _ & H). discriminate. }
  assert (Ht : exists l, trace w1 = trace w ++ l).
  { unfold setPeer_apply in Happly. unfold_calls_in Happly.
    repeat (split_hyp Happly; world_simpl); try discriminate; same_outcome Happly.
    all: rewrite <- ?app_assoc; eauto. }
  destruct Ht as [l Ht].
  apply setPeer_apply_success in Happly
    as (a & k & _ & Hip & Hid & Hk & _ & Hrows & _ & Hused & _ & Hif & Hg).
  world_simpl.
  unfold_calls_in H. repeat (split_hyp H; world_simpl); same_outcome H.
  all: exists a, k; eexists; rewrite Hid, Hused, Hif, Hg.
  all: repeat split; try lia; try assumption;
    [apply elem_of_union; left; apply elem_of_singleton; reflexivity
    |apply lookup_insert_eq
    |].
  all: erewrite since_app;
    [|world_simpl; rewrite Ht; world_simpl; rewrite <- !app_assoc; reflexivity].
  all: apply in_app_iff; right; left; reflexivity.
Qed.

(** X2. An expired peer is refused before any collaborator is asked to create
    anything, yet the rollback still runs on what the caller passed. *)
Theorem SetPeer_expired (info : PeerInfo) (w : world) :
  running w = true ->
  Expired now info = true ->
  exists w',
    SetPeer faulty subnet now info w
    = Done (info, Some (EInvalidArgument "peer already expired")) w'
    /\ List.map fst (since w w')
       = [MutexLock]
         ++ match Ipv4 info with Some ip => [PoolUnset ip] | None => [] end
         ++ (if 0 <? ID info then [StorageDeletePeer (ID info)] else [])
         ++ [MutexUnlock].
Proof.
  intros Hrun Hexp.
  unfold SetPeer, is_running, bind at 1. rewrite Hrun. cbn [negb].
  unfold locked, setPeer, setPeer_apply, setPeer_rollback. rewrite Hexp.
  unfold_calls.
  destruct (Ipv4 info) as [ip|]; destruct (Z.ltb_spec 0 (ID info));
    repeat (split_goal; world_simpl).
  all: eexists; split; [reflexivity|].
  all: erewrite since_app; [|world_simpl; rewrite <- ?app_assoc; reflexivity].
  all: reflexivity.
Qed.

(** *** updatePeer *)

Lemma release_fresh (a : Z) (s : gset Z) : a ∉ s -> ({[a]} ∪ s) ∖ {[a]} = s.
Proof.
  intros H. apply set_eq. intros x.
  rewrite elem_of_difference, elem_of_union, elem_of_singleton.
  split; [tauto|]. intros Hx. split; [tauto|]. intros ->. tauto.
Qed.

(** How far the closure of [updatePeer] got with the pool when the caller
    supplied an address. *)
Lemma updatePeer_apply_pool (oldPeer newPeer p1 : PeerInfo) (pr : progress)
    (err : option error) (a : Z) (w w1 : world) :
  Ipv4 newPeer = Some (mkIP (Some a)) ->
  updatePeer_apply faulty subnet now oldPeer newPeer w = Done (p1, pr, err) w1 ->
  Ipv4 p1 = Some (mkIP (Some a))
  /\ (wgOK pr = true -> err = None)
  /\ exists oip, Ipv4 oldPeer = Some oip
       /\ ((ipOK pr = false /\ used w1 = used w)
           \/ (ip_Equal (mkIP (Some a)) oip = true /\ used w1 = used w)
           \/ (ipOK pr = true /\ ip_Equal (mkIP (Some a)) oip = false
               /\ (a ∉ used w) /\ used w1 = {[a]} ∪ used w)).
Proof.
  intros Hn H. unfold updatePeer_apply in H. rewrite Hn in H.
  destruct (Ipv4 oldPeer) as [oip|]; [|discriminate].
  destruct (ip_Equal (mkIP (Some a)) oip) eqn:Heq; cbn [negb] in H;
    unfold_calls_in H; world_simpl;
    repeat (split_hyp H; world_simpl); try discriminate; outcome_eq H.
  all: split; [assumption|]; split; [intros; congruence|].
  all: eexists; split; [reflexivity|].
  all: try (left; split; reflexivity).
  all: try (right; left; split; [assumption|reflexivity]).
  all: right; right; repeat split; try reflexivity; try assumption.
  all: apply is_used_false; assumption.
Qed.

Lemma updatePeer_revert_pool (oldPeer p1 : PeerInfo) (pr : progress) (a : Z)
    (oip : xnetIP) (w0 w1 w2 : world) :
  (forall n ip, faulty n (PoolUnset ip) = false) ->
  Ipv4 p1 = Some (mkIP (Some a)) ->
  Ipv4 oldPeer = Some oip ->
  wgOK pr = false ->
  ((ipOK pr = false /\ used w1 = used w0)
   \/ (ip_Equal (mkIP (Some a)) oip = true /\ used w1 = used w0)
   \/ (ipOK pr = true /\ ip_Equal (mkIP (Some a)) oip = false
       /\ (a ∉ used w0) /\ used w1 = {[a]} ∪ used w0)) ->
  updatePeer_revert faulty oldPeer p1 pr w1 = Done tt w2 ->
  used w2 = used w0.
Proof.
  intros Hunset Hp Ho Hwg Hcases H.
  unfold updatePeer_revert in H. rewrite Hp, Ho in H.
  destruct pr as [ip db wg]. cbn [ipOK dbOK wgOK] in *. subst wg.
  destruct db, ip;
    destruct Hcases as [[Hip Hu]|[[Heq Hu]|(Hip & Heq & Hfree & Hu)]];
    try discriminate; rewrite ?Heq in H; cbn [negb] in H; unfold_calls_in H;
    repeat (first [progress rewrite ?Hunset in H | split_hyp H]; world_simpl);
    world_eq H; try assumption.
  all: unfold is_used in *; world_simpl.
  all: match goal with
       | H : bool_decide _ = true |- _ =>
           rewrite Hu; apply release_fresh; assumption
       | H : bool_decide _ = false |- _ =>
           apply bool_decide_eq_false in H; rewrite Hu in H; exfalso;
           apply H, elem_of_union; left; apply elem_of_singleton; reflexivity
       end.
Qed.

(** X5. A failed update gives back the address it had reserved. *)
Theorem UpdatePeer_failure_keeps_pool (newPeer p' : PeerInfo) (a : Z)
    (e : error) (w w' : world) :
  (forall n ip, faulty n (PoolUnset ip) = false) ->
  Expired now newPeer = false ->
  Ipv4 newPeer = Some (mkIP (Some a)) ->
  UpdatePeer faulty subnet now newPeer w = Done (p', Some e) w' ->
  used w' = used w.
Proof.
  intros Hunset Hexp Hn H.
  apply bind_inv in H as (r & w0 & Hr & H). unfold is_running in Hr.
  injection Hr as <- <-.
  destruct (running w); cbn [negb] in H.
  2:{ unfold ret in H. injection H as _ _ <-. reflexivity. }
  apply locked_inv in H as (w2 & H & ->).
  unfold updatePeer in H. rewrite Hexp in H.
  apply bind_inv in H as (got & w1 & Hget & H).
  assert (Hused1 : used w1 = used w).
  { unfold storage_GetPeer, call in Hget. world_simpl.
    destruct (faulty _ _); [|destruct (find _ _)]; cbn in Hget;
      injection Hget as <- <-; reflexivity. }
  destruct got as [old|e0].
  2:{ unfold ret in H. injection H as _ _ <-. exact Hused1. }
  apply bind_inv in H as ([[p1 pr] [e1|]] & w3 & Happly & H).
  - apply (updatePeer_apply_pool _ _ _ _ _ a) in Happly as (Hp1 & Hwg & oip & Ho & Hc);
      [|exact Hn].
    apply bind_inv in H as ([] & w4 & Hrev & H).
    unfold ret in H. injection H as _ _ <-. world_simpl.
    rewrite <- Hused1.
    apply (updatePeer_revert_pool old p1 pr a oip w1 w3 w4); auto.
    destruct (wgOK pr); [|reflexivity]. specialize (Hwg eq_refl). discriminate.
  - unfold_calls_in H. repeat (split_hyp H; world_simpl); discriminate.
Qed.

Lemma is_used_intro (w : world) (a : Z) : a ∈ used w -> is_used w a = true.
Proof. unfold is_used. apply bool_decide_eq_true_2. Qed.

(** X6. Moving the expiration of a live peer into the past removes the peer. *)
Theorem UpdatePeerExpiration_past_removes (ids : PeerIdentifiers) (p : PeerInfo)
    (t a : Z) (k : string) (w : world) :
  (forall n c, faulty n c = false) ->
  running w = true ->
  List.filter (matches (query_of ids)) (rows w) = [p] ->
  t < now ->
  Ipv4 p = Some (mkIP (Some a)) ->
  WireguardPublicKey p = Some k ->
  a ∈ used w ->
  exists w',
    UpdatePeerExpiration faulty subnet now (Some ids) (Some t) w = Done None w'
    /\ (forall r, r ∈ rows w' -> ID r <> ID p)
    /\ (a ∉ used w')
    /\ iface w' !! k = None
    /\ In (EventPush PeerRemove (with_Expires p (Some t)), None) (since w w').
Proof.
  intros Hf Hrun Hfilter Ht Hip Hk Ha.
  unfold UpdatePeerExpiration, is_running, bind at 1. rewrite Hrun. cbn [negb].
  unfold locked, bind at 1, storage_SearchPeers, call. rewrite Hf.
  cbn [search rows log]. rewrite Hfilter. cbn [err_of].
  unfold bind at 1, updatePeer, Expired. cbn [Expires with_Expires].
  apply Z.ltb_lt in Ht. rewrite Ht.
  unfold unsetPeer. cbn [Ipv4 with_Expires ID WireguardPublicKey]. rewrite Hip.
  unfold_calls. rewrite !Hf. cbn [WireguardPublicKey with_Expires IP]. rewrite Hk.
  world_simpl. unfold is_used. world_simpl.
  rewrite (bool_decide_eq_true_2 _ Ha). world_simpl. rewrite ?Hf. world_simpl.
  cbn [first_error fold_right].
  eexists. split; [reflexivity|]. world_simpl.
  split; [apply not_in_filter_id|].
  split; [rewrite elem_of_difference, elem_of_singleton; tauto|].
  split; [apply lookup_delete_eq|].
  erewrite since_app; [|world_simpl; rewrite <- !app_assoc; reflexivity].
  cbn. tauto.
Qed.

Lemma ip_Equal_refl (ip : xnetIP) : ip_Equal ip ip = true.
Proof. unfold ip_Equal. destruct (IP ip); [apply Z.eqb_refl|reflexivity]. Qed.

Lemma find_replaced (id : Z) (p : PeerInfo) (l : list PeerInfo) (old : PeerInfo) :
  ID p = id ->
  List.find (has_id id) l = Some old ->
  List.find (has_id id) (List.map (fun r => if has_id id r then p else r) l) = Some p.
Proof.
  intros Hp. induction l as [|r l IH]; cbn; [discriminate|].
  destruct (has_id id r) eqn:Hr.
  - intros _. unfold has_id at 1. rewrite Hp, Z.eqb_refl. reflexivity.
  - rewrite Hr. exact IH.
Qed.

Lemma find_existsb (id : Z) (l : list PeerInfo) (old : PeerInfo) :
  List.find (has_id id) l = Some old -> existsb (has_id id) l = true.
Proof.
  intros H. destruct (List.find_some _ _ H) as [Hin Hid].
  apply existsb_exists. eauto.
Qed.

(** X7. When WireGuard refuses the entry for a changed key but takes the old
    entry back, the update still reports success: storage holds the new
    record while the interface serves the old key only. *)
Theorem UpdatePeer_masks_refused_entry (newPeer old : PeerInfo) (ip : xnetIP)
    (ko kn : string) (w : world) :
  running w = true ->
  Expired now newPeer = false ->
  List.find (has_id (ID newPeer)) (rows w) = Some old ->
  Ipv4 newPeer = Some ip ->
  Ipv4 old = Some ip ->
  WireguardPublicKey old = Some ko ->
  WireguardPublicKey newPeer = Some kn ->
  ko <> kn ->
  (forall n p, WireguardPublicKey p = Some kn -> faulty n (WgSetPeer p) = true) ->
  (forall n c, (forall p, c = WgSetPeer p -> WireguardPublicKey p <> Some kn) ->
     faulty n c = false) ->
  exists w',
    UpdatePeer faulty subnet now newPeer w
    = Done (with_Updated newPeer (Some now), None) w'
    /\ List.find (has_id (ID newPeer)) (rows w') = Some (with_Updated newPeer (Some now))
    /\ iface w' = <[ko := old]> (iface w)
    /\ iface w' !! kn = iface w !! kn
    /\ In (EventPush PeerUpdate (with_Updated newPeer (Some now)), None) (since w w').
Proof.
  intros Hrun Hexp Hfind Hn Ho Hko Hkn Hne Hbad Hgood.
  assert (Hok : forall n c, (forall p, c <> WgSetPeer p) -> faulty n c = false).
  { intros n c Hc. apply Hgood. intros p Hp. destruct (Hc p Hp). }
  assert (Hold : forall n, faulty n (WgSetPeer old) = false).
  { intros n. apply Hgood. intros p Hp. injection Hp as <-. congruence. }
  unfold UpdatePeer, is_running, bind at 1. rewrite Hrun. cbn [negb].
  unfold locked, updatePeer. rewrite Hexp.
  unfold bind at 1, storage_GetPeer, call. rewrite Hok by discriminate.
  world_simpl. rewrite Hfind. cbn [err_of].
  unfold bind at 1, updatePeer_apply. rewrite Hn, Ho, ip_Equal_refl. cbn [negb].
  unfold bind at 1, ret at 1.
  unfold bind at 1, storage_UpdatePeer, call. rewrite Hok by discriminate.
  world_simpl. cbn [ID with_Updated]. rewrite (find_existsb _ _ _ Hfind).
  cbn [err_of]. rewrite Hko. cbn [WireguardPublicKey with_ID with_Updated].
  rewrite Hkn. rewrite bool_decide_eq_false_2 by congruence. cbn [negb].
  unfold bind at 1, wireguard_UnsetPeer, call_, bind at 1, call.
  rewrite Hok by discriminate. rewrite Hko. cbn [err_of ret as_error].
  unfold bind at 1, wireguard_SetPeer at 1, call_, bind at 1, call.
  rewrite Hbad by (cbn; exact Hkn). cbn [err_of ret as_error].
  unfold bind at 1, wireguard_SetPeer, call_, bind at 1, call.
  rewrite Hold. rewrite Hko. cbn [err_of ret as_error].
  unfold bind at 1, eventLog_Push, bind at 1, call_, bind at 1, call.
  rewrite Hok by discriminate. cbn [err_of ret as_error].
  replace (with_ID (with_Updated newPeer (Some now)) (ID newPeer))
    with (with_Updated newPeer (Some now)) by (destruct newPeer; reflexivity).
  eexists. split; [reflexivity|]. world_simpl.
  split; [apply (find_replaced _ _ _ old); [reflexivity|exact Hfind]|].
  split; [apply insert_delete_eq|].
  split; [rewrite insert_delete_eq; apply lookup_insert_ne; exact Hne|].
  erewrite since_app; [|world_simpl; rewrite <- !app_assoc; reflexivity].
  cbn. tauto.
Qed.

(** *** ConnectPeer *)

Lemma opt_matches_refl (x : option string) : opt_matches x x = true.
Proof. destruct x; cbn; [apply bool_decide_eq_true_2|]; reflexivity. Qed.

Lemma find_fresh_app (id : Z) (l : list PeerInfo) (p : PeerInfo) :
  (forall r, In r l -> ID r < id) -> ID p = id ->
  List.find (has_id id) (l ++ [p]) = Some p.
Proof.
  intros Hl Hp. induction l as [|r l IH]; cbn.
  - unfold has_id. rewrite Hp, Z.eqb_refl. reflexivity.
  - unfold has_id at 1. destruct (Z.eqb_spec (ID r) id) as [E|_].
    + specialize (Hl r (or_introl eq_refl)). lia.
    + apply IH. intros q Hq. apply Hl. right. exact Hq.
Qed.

Lemma replace_fresh_app (id : Z) (l : list PeerInfo) (p q : PeerInfo) :
  (forall r, In r l -> ID r < id) -> ID p = id ->
  List.map (fun r => if has_id id r then q else r) (l ++ [p]) = l ++ [q].
Proof.
  intros Hl Hp. induction l as [|r l IH]; cbn.
  - unfold has_id. rewrite Hp, Z.eqb_refl. reflexivity.
  - unfold has_id at 1. destruct (Z.eqb_spec (ID r) id) as [E|_].
    + specialize (Hl r (or_introl eq_refl)). lia.
    + f_equal. apply IH. intros x Hx. apply Hl. right. exact Hx.
Qed.

(** What a successful [setPeer] has done. *)
Lemma setPeer_success (info info' : PeerInfo) (w w' : world) :
  setPeer faulty subnet now info w = Done (info', None) w' ->
  exists a k,
    Ipv4 info' = Some (mkIP (Some a))
    /\ ID info' = Z.pos (next_id w)
    /\ WireguardPublicKey info' = Some k
    /\ UserId info' = UserId info
    /\ InstallationId info' = InstallationId info
    /\ rows w' = rows w ++ [info']
    /\ used w' = {[a]} ∪ used w
    /\ iface w' = <[k := info']> (iface w)
    /\ running w' = running w.
Proof.
  intros H. unfold setPeer in H.
  apply bind_inv in H as ([p [e1|]] & w1 & Happly & H).
  { apply bind_inv in H as (u & w3 & _ & H). discriminate. }
  assert (Hrun : running w1 = running w).
  { unfold setPeer_apply in Happly. unfold_calls_in Happly.
    repeat (split_hyp Happly; world_simpl); try discriminate; world_eq Happly;
      reflexivity. }
  apply setPeer_apply_success in Happly
    as (a & k & _ & Hip & Hid & Hk & Hshape & Hrows & _ & Hused & _ & Hif & Hg).
  unfold_calls_in H. repeat (split_hyp H; world_simpl); outcome_eq H.
  all: exists a, k; repeat split; try assumption.
  all: rewrite Hshape; reflexivity.
Qed.

(** X8. With collaborators that do not fail and stored ids below the next
    id, connecting twice with the same user and installation ids keeps one
    peer, provided the second record is not expired and carries a public
    key: the second call updates the row the first one created, under the
    same id and address, and the interface ends up with the second key
    only. *)
Theorem ConnectPeer_twice (info info1 info2 : PeerInfo) (k2 : string)
    (w w1 : world) :
  (forall n c, faulty n c = false) ->
  (forall r, In r (rows w) -> ID r < Z.pos (next_id w)) ->
  List.filter (same_identity info) (rows w) = [] ->
  ConnectPeer faulty subnet now info w = Done (info1, None) w1 ->
  UserId info2 = UserId info ->
  InstallationId info2 = InstallationId info ->
  Expired now info2 = false ->
  WireguardPublicKey info2 = Some k2 ->
  exists p2 w2,
    ConnectPeer faulty subnet now info2 w1 = Done (p2, None) w2
    /\ ID p2 = ID info1
    /\ Ipv4 p2 = Ipv4 info1
    /\ rows w2 = rows w ++ [p2]
    /\ used w2 = used w1
    /\ iface w2 !! k2 = Some p2
    /\ (forall k1, WireguardPublicKey info1 = Some k1 -> k1 <> k2 ->
        iface w2 !! k1 = None).
Proof.
  intros Hf Hfresh Hnone H1 Hu Hi Hexp Hk2.
  (* the first call *)
  apply bind_inv in H1 as (r & w0 & Hr & H1). unfold is_running in Hr.
  injection Hr as <- <-.
  destruct (running w) eqn:Hrun; cbn [negb] in H1; [|discriminate].
  apply locked_inv in H1 as (wa & H1 & ->).
  unfold bind at 1, storage_SearchPeers, call in H1. rewrite Hf in H1.
  cbn [log rows err_of] in H1. rewrite search_by_identity, Hnone in H1.
  apply setPeer_success in H1
    as (a & k1 & Hip1 & Hid1 & Hk1 & Hu1 & Hi1 & Hrows1 & Hused1 & Hif1 & Hrun1).
  world_simpl.
  (* the second call *)
  assert (Hsame : forall r, same_identity info2 r = same_identity info r).
  { intros r. unfold same_identity. rewrite Hu, Hi. reflexivity. }
  assert (Hfound : List.filter (same_identity info2) (rows wa) = [info1]).
  { rewrite Hrows1, List.filter_app. rewrite (List.filter_ext _ _ Hsame), Hnone. cbn.
    rewrite Hsame. unfold same_identity. rewrite <- Hu1, <- Hi1, !opt_matches_refl.
    reflexivity. }
  pose proof (find_fresh_app _ _ info1 Hfresh Hid1) as Hfind1.
  rewrite <- Hid1 in Hfind1.
  assert (Hrepl : forall q,
             List.map (fun r => if has_id (ID info1) r then q else r)
               (rows w ++ [info1]) = rows w ++ [q]).
  { intros q. rewrite Hid1. apply replace_fresh_app; assumption. }
  unfold ConnectPeer, is_running, bind at 1. world_simpl. rewrite Hrun1, Hrun.
  cbn [negb].
  unfold locked, bind at 1, storage_SearchPeers, call. rewrite Hf.
  cbn [log rows err_of]. rewrite search_by_identity, Hfound.
  unfold updatePeer, Expired. cbn [Expires with_Ipv4 with_ID].
  fold (Expired now info2). rewrite Hexp.
  unfold bind at 1, storage_GetPeer, call. rewrite Hf. world_simpl. cbn [ID].
  rewrite Hrows1, Hfind1.
  cbn [err_of].
  unfold bind at 1, updatePeer_apply. cbn [Ipv4 with_Ipv4].
  rewrite Hip1, ip_Equal_refl. cbn [negb].
  unfold bind at 1, ret at 1.
  unfold bind at 1, storage_UpdatePeer, call. rewrite Hf.
  world_simpl. cbn [ID with_Updated with_Ipv4 with_ID].
  rewrite Hrows1.
  rewrite (find_existsb _ _ _ Hfind1).
  cbn [err_of]. rewrite Hk1.
  cbn [WireguardPublicKey with_ID with_Updated with_Ipv4]. rewrite Hk2.
  set (p2 := with_ID (with_Updated (with_Ipv4 (with_ID info2 (ID info1))
                                      (Some (mkIP (Some a)))) (Some now))
               (ID info1)).
  rewrite Hrepl.
  assert (Hkp2 : WireguardPublicKey p2 = Some k2) by exact Hk2.
  destruct (bool_decide (k1 = k2)) eqn:Hkk; cbn [negb].
  - apply bool_decide_eq_true in Hkk. subst k2.
    unfold bind at 1, ret at 1.
    unfold bind at 1, wireguard_SetPeer, call_, bind at 1, call.
    rewrite Hf. rewrite Hkp2. cbn [err_of ret as_error].
    unfold bind at 1, eventLog_Push, bind at 1, call_, bind at 1, call.
    rewrite Hf. cbn [err_of ret as_error].
    exists p2. eexists. split; [reflexivity|]. world_simpl.
    repeat split; try reflexivity.
    + apply lookup_insert_eq.
    + intros k Hk Hne. congruence.
  - apply bool_decide_eq_false in Hkk.
    unfold bind at 1, wireguard_UnsetPeer, call_, bind at 1, call.
    rewrite Hf. rewrite Hk1. cbn [err_of ret as_error].
    unfold bind at 1, wireguard_SetPeer, call_, bind at 1, call.
    rewrite Hf. rewrite Hkp2. cbn [err_of ret as_error].
    unfold bind at 1, eventLog_Push, bind at 1, call_, bind at 1, call.
    rewrite Hf. cbn [err_of ret as_error].
    exists p2. eexists. split; [reflexivity|]. world_simpl.
    repeat split; try reflexivity.
    + apply lookup_insert_eq.
    + intros k Hk Hne. assert (k = k1) by congruence. subst k.
      rewrite lookup_insert_ne by congruence. apply lookup_delete_eq.
Qed.

End MoreManagerFacts.

(** * Startup *)

Section StartupFacts.

Variable faulty : nat -> Call -> bool.
Variable subnet : Z -> list Z.
Variable now : Z.

Lemma programmed_app (l1 l2 : list entry) :
  programmed (l1 ++ l2) = programmed l1 ++ programmed l2.
Proof. apply flat_map_app. Qed.

(** One turn of the startup loop: the pool only grows, and the peer handed
    to WireGuard, if any, is live and holds a reservation. *)
Lemma restorePeer_step (p : PeerInfo) (w w1 : world) :
  restorePeer faulty subnet now p w = Done tt w1 ->
  exists l,
    trace w1 = trace w ++ l
    /\ (forall x, x ∈ used w -> x ∈ used w1)
    /\ (forall q, In q (programmed l) ->
          Expired now q = false
          /\ exists a, Ipv4 q = Some (mkIP (Some a)) /\ a ∈ used w1)
    /\ allPeersGauge w1 = allPeersGauge w + Z.of_nat (length (programmed l)).
Proof.
  intros H. unfold restorePeer in H. unfold_calls_in H.
  repeat (split_hyp H; world_simpl; cbn [is_ErrNotInRange negb] in H);
    try discriminate; world_eq H.
  all: eexists; split; [rewrite <- ?app_assoc; reflexivity|].
  all: split; [intros x Hx; try assumption; apply elem_of_union; right; exact Hx|].
  all: cbn [programmed flat_map app length]; (split; [|lia]).
  all: intros q Hq; cbn [In] in Hq.
  all: try contradiction; destruct Hq as [<-|[]].
  all: split; [assumption|]; eexists; split; [first [eassumption|reflexivity]|].
  all: apply elem_of_union; left; apply elem_of_singleton; reflexivity.
Qed.

Lemma restore_loop (l : list PeerInfo) (w w' : world) :
  for_each (restorePeer faulty subnet now) l w = Done tt w' ->
  exists tr,
    trace w' = trace w ++ tr
    /\ (forall x, x ∈ used w -> x ∈ used w')
    /\ (forall q, In q (programmed tr) ->
          Expired now q = false
          /\ exists a, Ipv4 q = Some (mkIP (Some a)) /\ a ∈ used w')
    /\ allPeersGauge w' = allPeersGauge w + Z.of_nat (length (programmed tr)).
Proof.
  revert w. induction l as [|p l IH]; intros w H; cbn in H.
  - unfold ret in H. injection H as <-. exists []. rewrite app_nil_r.
    repeat split; auto; try contradiction. cbn. lia.
  - apply bind_inv in H as ([] & w1 & Hstep & H).
    apply restorePeer_step in Hstep as (l1 & Ht1 & Hm1 & Hp1 & Hg1).
    apply IH in H as (l2 & Ht2 & Hm2 & Hp2 & Hg2).
    exists (l1 ++ l2). rewrite Ht2, Ht1, <- app_assoc. split; [reflexivity|].
    split; [auto|]. rewrite programmed_app, length_app. split; [|lia].
    intros q Hq. apply in_app_iff in Hq as [Hq|Hq]; [|auto].
    destruct (Hp1 q Hq) as (He & a & Ha & Hin). split; [exact He|]. eauto.
Qed.

(** X9. Startup hands to WireGuard only peers that are not expired and whose
    address is reserved in the pool, and the gauge counts exactly the peers
    handed over, accepted or not. *)
Theorem restorePeers_programs_reserved (w w' : world) :
  restorePeers faulty subnet now w = Done tt w' ->
  (forall q, In q (programmed (since w w')) ->
     Expired now q = false
     /\ exists a, Ipv4 q = Some (mkIP (Some a)) /\ a ∈ used w')
  /\ allPeersGauge w' = allPeersGauge w
                         + Z.of_nat (length (programmed (since w w'))).
Proof.
  intros H. unfold restorePeers in H.
  apply bind_inv in H as (found & w1 & Hfound & H).
  assert (H1 : exists e, trace w1 = trace w ++ [(StorageSearchPeers None, e)]
                 /\ used w1 = used w /\ allPeersGauge w1 = allPeersGauge w).
  { unfold Manager.peers, storage_SearchPeers, call in Hfound.
    destruct (faulty _ _); injection Hfound as <- <-; eexists; cbn; eauto. }
  destruct H1 as (e & Ht1 & Hu1 & Hg1).
  destruct found as [l|e0].
  - apply restore_loop in H as (tr & Ht & Hm & Hp & Hg).
    rewrite (since_app w w' ((StorageSearchPeers None, e) :: tr)).
    2:{ rewrite Ht, Ht1, <- app_assoc. reflexivity. }
    cbn [programmed flat_map app]. fold (programmed tr). split; [exact Hp|lia].
  - unfold ret in H. injection H as <-.
    rewrite (since_app w w1 [(StorageSearchPeers None, e)]) by exact Ht1.
    cbn. split; [contradiction|lia].
Qed.

(** What one turn of the startup loop does to the stored rows. *)
Lemma restorePeer_rows (p : PeerInfo) (w w1 : world) :
  (forall n id, faulty n (StorageDeletePeer id) = false) ->
  restorePeer faulty subnet now p w = Done tt w1 ->
  (Expired now p = true
   /\ rows w1 = List.filter (fun r => negb (has_id (ID p) r)) (rows w))
  \/ (Expired now p = false
      /\ (rows w1 = rows w
          \/ exists p', Expired now p' = false
               /\ rows w1 = List.map (fun r => if has_id (ID p') r then p' else r)
                              (rows w))).
Proof.
  intros Hdel H. unfold restorePeer in H. unfold_calls_in H.
  repeat (first [progress rewrite ?Hdel in H | split_hyp H];
          world_simpl; cbn [is_ErrNotInRange negb] in H);
    try discriminate; world_eq H.
  all: try (left; split; reflexivity).
  all: right; split; [reflexivity|].
  all: try (left; reflexivity).
  all: right;
    match goal with
    | |- exists _, _ /\ List.map (fun r => if _ then ?q else r) _ = _ => exists q
    end; split; [assumption|reflexivity].
Qed.

Lemma restore_loop_wipes (l : list PeerInfo) (w w' : world) :
  (forall n id, faulty n (StorageDeletePeer id) = false) ->
  for_each (restorePeer faulty subnet now) l w = Done tt w' ->
  pending now l w ->
  forall r, In r (rows w') -> Expired now r = false.
Proof.
  intros Hdel. revert w. induction l as [|p l IH]; intros w H Hpend; cbn in H.
  - unfold ret in H. injection H as <-. intros r Hr.
    destruct (Expired now r) eqn:He; [|reflexivity].
    destruct (Hpend r Hr He) as (q & [] & _).
  - apply bind_inv in H as ([] & w1 & Hstep & H).
    apply (IH w1 H). clear IH H.
    apply restorePeer_rows in Hstep; [|exact Hdel].
    intros r Hr He.
    assert (Hold : In r (rows w) -> ID p <> ID r \/ Expired now p = false ->
                   exists q, In q l /\ Expired now q = true /\ ID q = ID r).
    { intros Hin Hnot. destruct (Hpend r Hin He) as (q & [<-|Hq] & Hqe & Hqi).
      - destruct Hnot; congruence.
      - eauto. }
    destruct Hstep as [[Hp E]|[Hp [E|(p' & Hp' & E)]]]; rewrite E in Hr.
    + apply filter_In in Hr as [Hin Hid]. apply Hold; [exact Hin|].
      left. unfold has_id in Hid. intros E'. rewrite <- E', Z.eqb_refl in Hid.
      discriminate.
    + apply Hold; auto.
    + apply in_map_iff in Hr as (r0 & Hr0 & Hin).
      destruct (has_id (ID p') r0); [congruence|]. subst r0. apply Hold; auto.
Qed.

(** X10. After startup no expired peer is left in storage, as long as storage
    lists the peers and carries out the deletions. *)
Theorem restorePeers_wipes_expired (w w' : world) :
  (forall n id, faulty n (StorageDeletePeer id) = false) ->
  faulty (length (trace w)) (StorageSearchPeers None) = false ->
  restorePeers faulty subnet now w = Done tt w' ->
  forall r, In r (rows w') -> Expired now r = false.
Proof.
  intros Hdel Hsearch H. unfold restorePeers in H.
  unfold bind at 1, Manager.peers, storage_SearchPeers, call in H. rewrite Hsearch in H.
  cbn [search err_of] in H.
  apply (restore_loop_wipes _ _ _ Hdel H).
  intros r Hr He. exists r. auto.
Qed.

(** The pool has a free address of the range to hand out. *)
Lemma find_free (w : world) (l : list Z) :
  (exists x, In x l /\ x ∉ used w) ->
  exists b, List.find (fun x => negb (is_used w x)) l = Some b
            /\ In b l /\ b ∉ used w.
Proof.
  intros (x & Hin & Hfree).
  destruct (List.find (fun x => negb (is_used w x)) l) as [b|] eqn:Hfind.
  - exists b. destruct (List.find_some _ _ Hfind) as [Hb Hnot].
    repeat split; [exact Hb|]. apply is_used_false.
    destruct (is_used w b); [discriminate|reflexivity].
  - pose proof (List.find_none _ _ Hfind x Hin) as Hx. cbn in Hx.
    destruct (is_used w x) eqn:Hu; [|discriminate].
    apply is_used_true in Hu. contradiction.
Qed.

(** X11. With collaborators that do not fail, a live peer that has a public
    key and whose stored address the pool refuses as out of range is moved,
    when the range has a free address: the loop calls pool Set, pool Alloc,
    storage UpdatePeer and WireGuard SetPeer in this order, and the address
    that Alloc reserved (one of the range, free before) is the one that
    storage records on the peer's row and the one under which the interface
    is programmed; the gauge goes up by one. *)
Theorem restorePeer_migrates (p : PeerInfo) (a : Z) (k : string) (w : world) :
  (forall n c, faulty n c = false) ->
  Expired now p = false ->
  Ipv4 p = Some (mkIP (Some a)) ->
  WireguardPublicKey p = Some k ->
  in_range subnet (NetworkPolicy p) a = false ->
  (exists x, In x (subnet (NetworkPolicy p)) /\ x ∉ used w) ->
  existsb (has_id (ID p)) (rows w) = true ->
  exists (b : Z) (w' : world),
    let p' := with_Ipv4 p (Some (mkIP (Some b))) in
    restorePeer faulty subnet now p w = Done tt w'
    /\ since w w' = [ (PoolSet (mkIP (Some a)) (NetworkPolicy p), Some ErrNotInRange);
                      (PoolAlloc (NetworkPolicy p), None);
                      (StorageUpdatePeer p', None);
                      (WgSetPeer p', None) ]
    /\ In b (subnet (NetworkPolicy p))
    /\ (b ∉ used w)
    /\ used w' = {[b]} ∪ used w
    /\ rows w' = List.map (fun r => if has_id (ID p) r then p' else r) (rows w)
    /\ iface w' = <[k := p']> (iface w)
    /\ allPeersGauge w' = allPeersGauge w + 1.
Proof.
  intros Hf Hexp Hip Hk Hout Hspace Hrow.
  destruct (find_free w _ Hspace) as (b & Hfree & Hin & Hnot).
  exists b.
  unfold restorePeer. rewrite Hexp, Hip. unfold_calls. unfold GetNetworkPolicy.
  rewrite !Hf. world_simpl. rewrite Hout. cbn [negb err_of as_error is_ErrNotInRange].
  rewrite !Hf. world_simpl. unfold is_used in *. world_simpl. rewrite Hfree.
  rewrite !Hf. world_simpl. rewrite Hrow. cbn [err_of].
  rewrite !Hf. world_simpl. rewrite Hk.
  eexists; split; [reflexivity|]; world_simpl.
  split.
  { erewrite since_app; [|world_simpl; rewrite <- !app_assoc; reflexivity].
    reflexivity. }
  repeat split; try reflexivity; assumption.
Qed.

End StartupFacts.

(** X12. [findWgPeerByPublicKey] is the plain lookup by the peer's key: its guard
    on the map's length changes nothing, so a nil or empty map and a peer
    without key are both answered "not found". *)
Theorem findWgPeerByPublicKey_lookup {W} (zero : W) (peer : PeerInfo)
    (wgPeers : gmap string W) :
  findWgPeerByPublicKey zero peer wgPeers
  = match WireguardPublicKey peer with
    | Some key =>
        match wgPeers !! key with
        | Some wgPeer => (wgPeer, true)
        | None => (zero, false)
        end
    | None => (zero, false)
    end.
Proof.
  unfold findWgPeerByPublicKey.
  destruct (Nat.eqb_spec (size wgPeers) 0) as [Hz|_]; [|reflexivity].
  apply map_size_empty_iff in Hz. subst wgPeers.
  destruct (WireguardPublicKey peer); [rewrite lookup_empty|]; reflexivity.
Qed.

(** * More of the traffic event sender *)

Lemma wrap64_wrap64_add (a b : Z) : wrap64 (wrap64 a + b) = wrap64 (a + b).
Proof. rewrite Z.add_comm, wrap64_add_wrap64, Z.add_comm. reflexivity. Qed.

Lemma find_in_app {A} (f : A -> bool) (l1 l2 : list A) :
  List.find f (l1 ++ l2)
  = match List.find f l1 with Some x => Some x | None => List.find f l2 end.
Proof.
  induction l1 as [|x l1 IH]; cbn; [reflexivity|]. destruct (f x); auto.
Qed.

Lemma peersMap_fold (l : list PeerInfo) (m : gmap string PeerInfo) (k : string) :
  List.fold_left
    (fun m peer =>
       match WireguardPublicKey peer with
       | None => m
       | Some k => <[k := peer]> m
       end) l m !! k
  = match List.find (keyed k) (rev l) with
    | Some p => Some p
    | None => m !! k
    end.
Proof.
  revert m. induction l as [|p l IH]; intros m; cbn; [reflexivity|].
  rewrite IH. rewrite find_in_app.
  destruct (List.find (keyed k) (rev l)); [reflexivity|].
  cbn. unfold keyed at 1.
  destruct (WireguardPublicKey p) as [k'|] eqn:Hk.
  - destruct (decide (k' = k)) as [->|Hne].
    + rewrite bool_decide_eq_true_2 by reflexivity. apply lookup_insert_eq.
    + rewrite bool_decide_eq_false_2 by congruence. apply lookup_insert_ne, Hne.
  - rewrite bool_decide_eq_false_2 by discriminate. reflexivity.
Qed.

(** X13. The constructor's baseline: for each key the last listed peer carrying
    it; peers without a key are left out.  Nothing is pending and both
    budgets are zero. *)
Theorem constructor_baseline (settings : option PeerStatisticsSettings)
    (l : list PeerInfo) (k : string) :
  let s := NewPeerTrafficUpdateEventSender settings l in
  peers s !! k = List.find (keyed k) (rev l)
  /\ updatedPeers s = ∅
  /\ state s = mkTraffic 0 0
  /\ eventLog s = [].
Proof.
  unfold NewPeerTrafficUpdateEventSender.
  destruct settings; cbn; (split; [|repeat split]).
  all: unfold peersMap; rewrite peersMap_fold, lookup_empty.
  all: destruct (List.find _ _); reflexivity.
Qed.

(** X14. Send ignores the peers that are not in the baseline. *)
Theorem accumulate_unknown (batch : list PeerInfo) (s : sender) :
  (forall p, In p batch ->
     exists k, WireguardPublicKey p = Some k /\ peers s !! k = None) ->
  accumulate batch s = Done tt s.
Proof.
  induction batch as [|p batch IH]; intros H; cbn; [reflexivity|].
  destruct (H p (or_introl eq_refl)) as (k & Hk & Hnone). rewrite Hk.
  unfold account. rewrite Hnone. apply IH. intros q Hq. apply H. right. exact Hq.
Qed.

(** X15. Submissions for one key telescope: after a batch of records of the same
    peer, the upstream budget has moved by the last record's counter minus
    the baseline's, whatever came in between and whatever the sign. *)
Theorem accumulate_telescopes (batch : list PeerInfo) (k : string)
    (old : PeerInfo) (o : Z) (s : sender) :
  batch <> [] ->
  (forall p, In p batch ->
     WireguardPublicKey p = Some k /\ exists u, Upstream p = Some u) ->
  peers s !! k = Some old ->
  Upstream old = Some o ->
  exists s' plast u,
    accumulate batch s = Done tt s'
    /\ last batch = Some plast
    /\ Upstream plast = Some u
    /\ UpstreamBytesChange (state s')
       = wrap64 (UpstreamBytesChange (state s) + (u - o))
    /\ peers s' !! k = Some plast
    /\ updatedPeers s' !! k = Some plast.
Proof.
  revert old o s. induction batch as [|p batch IH]; intros old o s Hne Hall Hold Ho;
    [congruence|].
  destruct (Hall p (or_introl eq_refl)) as (Hk & u & Hu).
  cbn [accumulate]. rewrite Hk.
  assert (Hacc : UpstreamBytesChange (state (account k p s))
                 = wrap64 (UpstreamBytesChange (state s) + (u - o))
                 /\ peers (account k p s) !! k = Some p
                 /\ updatedPeers (account k p s) !! k = Some p).
  { unfold account. rewrite Hold, Hu, Ho. cbn.
    rewrite wrap64_add_wrap64, !lookup_insert_eq. auto. }
  destruct Hacc as (Hup & Hp & Hupd).
  destruct batch as [|p2 batch].
  - exists (account k p s), p, u. repeat split; try reflexivity; assumption.
  - destruct (IH p u (account k p s)) as (s' & plast & u' & Hrun & Hlast & Hul & Hb & Hpl & Hul');
      [discriminate|intros q Hq; apply Hall; right; exact Hq|exact Hp|exact Hu|].
    exists s', plast, u'. split; [exact Hrun|]. split; [exact Hlast|].
    split; [exact Hul|]. split; [|auto].
    rewrite Hb, Hup, wrap64_wrap64_add. f_equal. lia.
Qed.

Section MoreSenderFacts.
Variable push_fails : nat -> PeerInfo -> bool.

(** X16. After a Send that returns, no configured threshold is exceeded: either
    the budgets stayed within the thresholds or the flush has reset them. *)
Theorem Send_leaves_budget_within_thresholds (batch : list PeerInfo)
    (s s' : sender) :
  reachable push_fails s ->
  Send push_fails batch s = Done tt s' ->
  ~ over_threshold s'.
Proof.
  intros Hr H. apply reachable_backed in Hr.
  unfold Send in H. apply bind_inv in H as ([] & s1 & Hacc & H).
  pose proof (accumulate_backed batch s Hr) as Hb. rewrite Hacc in Hb.
  cbn [final_state] in Hb.
  destruct (sendUpdates_effect push_fails s1 Hb)
    as (s2 & pushed & Hflush & _ & _ & _ & Hst & _).
  assert (Hzero : forall t, state t = mkTraffic 0 0 -> ~ over_threshold t).
  { intros t Ht. unfold over_threshold. rewrite Ht. cbn. lia. }
  destruct (Z.ltb_spec 0 (maxUpstreamBytes s1));
    destruct (Z.ltb_spec (maxUpstreamBytes s1) (UpstreamBytesChange (state s1)));
    destruct (Z.ltb_spec 0 (maxDownstreamBytes s1));
    destruct (Z.ltb_spec (maxDownstreamBytes s1)
                (DownstreamBytesChange (state s1)));
    cbn [andb] in H;
    try (rewrite Hflush in H; injection H as <-; apply Hzero, Hst).
  all: injection H as <-; unfold over_threshold; lia.
Qed.

(** X17. A flush with nothing pending pushes nothing: right after a flush, a
    second one leaves the sender as it is. *)
Theorem flush_twice (s : sender) :
  reachable push_fails s ->
  exists s',
    sendUpdates push_fails s = Done tt s'
    /\ sendUpdates push_fails s' = Done tt s'.
Proof.
  intros Hr. apply reachable_backed in Hr.
  destruct (sendUpdates_effect push_fails s Hr)
    as (s' & pushed & Hflush & _ & _ & _ & _ & Hempty).
  exists s'. split; [exact Hflush|].
  unfold sendUpdates. rewrite Hempty, map_size_empty. reflexivity.
Qed.

End MoreSenderFacts.

(** X18. Remove takes the peer out of the baseline only: what is pending for it
    stays pending, the budgets stay, and a later record for that key is
    ignored by Send. *)
Theorem Remove_then_Send (p q : PeerInfo) (k : string) (s : sender) :
  WireguardPublicKey p = Some k ->
  WireguardPublicKey q = Some k ->
  exists s',
    Remove p s = Done tt s'
    /\ peers s' !! k = None
    /\ updatedPeers s' = updatedPeers s
    /\ state s' = state s
    /\ accumulate [q] s' = Done tt s'.
Proof.
  intros Hp Hq. unfold Remove. rewrite Hp.
  destruct (peers s !! k) eqn:Hk; eexists; (split; [reflexivity|]).
  - assert (Hgone : peers (set_peers s (delete k (peers s))) !! k = None)
      by apply lookup_delete_eq.
    repeat split; try exact Hgone.
    cbn [accumulate]. rewrite Hq. unfold account. rewrite Hgone. reflexivity.
  - repeat split; try exact Hk.
    cbn [accumulate]. rewrite Hq. unfold account. rewrite Hk. reflexivity.
Qed.

(** * The runtime *)

Section RuntimeFacts.
Variable EventSetLogLevel : Z.
Variable EventRestart : Z.
Variable fails : nat -> Runtime.Call -> option error.

(** X19. Restart stops the services, then starts them: Start is called only
    after Stop succeeded, the result is the first error met, and the
    restart-required flag is cleared as soon as Stop succeeded, also when
    Start then fails. *)
Theorem Restart_steps (r r' : Runtime.TunnelRuntime) (e : option error) :
  Runtime.Restart fails r = Done e r' ->
  (exists eStop, eStop <> None /\ e = eStop
      /\ Runtime.calls r' = Runtime.calls r ++ [(Runtime.ServicesShutdown, eStop)]
      /\ Runtime.RestartRequired r' = Runtime.RestartRequired r)
  \/ (Runtime.calls r' = Runtime.calls r
                         ++ [(Runtime.ServicesShutdown, None); (Runtime.Starter, e)]
      /\ Runtime.RestartRequired r' = false).
Proof.
  unfold Runtime.Restart, Runtime.Stop, Runtime.Start, Runtime.invoke, bind, ret.
  cbn [Runtime.calls Runtime.RestartRequired Runtime.set_RestartRequired].
  destruct (fails (length (Runtime.calls r)) Runtime.ServicesShutdown) as [e1|] eqn:H1.
  - intros H. injection H as <- <-. left. exists (Some e1).
    repeat split. discriminate.
  - destruct (fails _ Runtime.Starter) as [e2|] eqn:H2;
      intros H; injection H as <- <-; right; cbn; rewrite <- app_assoc; auto.
Qed.

(** X20. A restart event that the process survives means that both Stop and
    Start succeeded; the flag is then cleared.  If either fails the runtime
    ends the process. *)
Theorem ProcessEvents_restart (ev : Runtime.Event) (r : Runtime.TunnelRuntime) :
  Runtime.EventType ev = EventRestart ->
  EventRestart <> EventSetLogLevel ->
  match Runtime.ProcessEvents EventSetLogLevel EventRestart fails ev r with
  | Done _ r' =>
      Runtime.RestartRequired r' = false
      /\ Runtime.calls r' = Runtime.calls r
                            ++ [(Runtime.ServicesShutdown, None);
                                (Runtime.Starter, None)]
  | Crash r' =>
      exists e c, In (c, Some e) (drop (length (Runtime.calls r)) (Runtime.calls r'))
                  /\ (c = Runtime.ServicesShutdown \/ c = Runtime.Starter)
  end.
Proof.
  intros Hev Hne. unfold Runtime.ProcessEvents. rewrite Hev.
  destruct (Z.eqb_spec EventRestart EventSetLogLevel) as [E|_]; [contradiction|].
  rewrite Z.eqb_refl.
  unfold Runtime.Restart, Runtime.Stop, Runtime.Start, Runtime.invoke, bind, ret, panic.
  cbn [Runtime.calls Runtime.RestartRequired Runtime.set_RestartRequired].
  destruct (fails (length (Runtime.calls r)) Runtime.ServicesShutdown) as [e1|] eqn:H1.
  - exists e1, Runtime.ServicesShutdown. cbn. rewrite drop_app_length. cbn. auto.
  - destruct (fails _ Runtime.Starter) as [e2|] eqn:H2; cbn.
    + exists e2, Runtime.Starter. rewrite <- app_assoc, drop_app_length. cbn. auto.
    + rewrite <- app_assoc. auto.
Qed.

(** X21. Events other than a restart never touch the flag and never stop or
    start the services; a set-log-level event whose payload is not a string
    panics before anything is called. *)
Theorem ProcessEvents_other (ev : Runtime.Event) (r : Runtime.TunnelRuntime) :
  Runtime.EventType ev <> EventRestart \/ Runtime.EventType ev = EventSetLogLevel ->
  let o := Runtime.ProcessEvents EventSetLogLevel EventRestart fails ev r in
  Runtime.RestartRequired (final_state o) = Runtime.RestartRequired r
  /\ (forall c e, In (c, e) (Runtime.calls (final_state o)) ->
        In (c, e) (Runtime.calls r)
        \/ (c <> Runtime.ServicesShutdown /\ c <> Runtime.Starter))
  /\ (Runtime.EventType ev = EventSetLogLevel ->
      Runtime.Info ev = Runtime.InfoOther -> o = Crash r).
Proof.
  intros Hev o. subst o. unfold Runtime.ProcessEvents.
  destruct (Z.eqb_spec (Runtime.EventType ev) EventSetLogLevel) as [E|NE].
  - destruct (Runtime.Info ev) as [level|]; cbn.
    + split; [reflexivity|]. split; [|discriminate].
      intros c e Hin. apply in_app_iff in Hin as [Hin|[Hin|[]]]; [auto|].
      injection Hin as <- <-. right. split; discriminate.
    + split; [reflexivity|]. split; [auto|reflexivity].
  - destruct Hev as [Hev|Hev]; [|contradiction].
    destruct (Z.eqb_spec (Runtime.EventType ev) EventRestart) as [E|_];
      [contradiction|].
    cbn. split; [reflexivity|]. split; [|contradiction].
    intros c e Hin. apply in_app_iff in Hin as [Hin|[Hin|[]]]; [auto|].
    injection Hin as <- <-. right. split; discriminate.
Qed.
End RuntimeFacts.

(** * The added theorems on concrete runs *)

Lemma SetPeer_success_witness :
  let o := SetPeer reliable net clock u1 fresh in
  exists info' a k ePush,
    o = Done (info', None) (final_state o)
    /\ 0 < ID info'
    /\ Ipv4 info' = Some (mkIP (Some a))
    /\ WireguardPublicKey info' = Some k
    /\ rows (final_state o) = rows fresh ++ [info']
    /\ (a ∈ used (final_state o))
    /\ iface (final_state o) !! k = Some info'
    /\ allPeersGauge (final_state o) = allPeersGauge fresh + 1
    /\ In (EventPush PeerAdd info', ePush) (since fresh (final_state o)).
Proof.
  intros o.
  exists (with_ID (with_Ipv4 u1 (Some (mkIP (Some (addr 10 0 0 5))))) 1).
  assert (Ho : o = Done (with_ID (with_Ipv4 u1 (Some (mkIP (Some (addr 10 0 0 5))))) 1,
                         None) (final_state o)) by (vm_compute; reflexivity).
  destruct (SetPeer_success reliable net clock u1 _ fresh _ Ho)
    as (a & k & ePush & H).
  exists a, k, ePush. split; [exact Ho|exact H].
Defined.

Lemma SetPeer_expired_witness :
  exists w',
    SetPeer reliable net clock alice_expired one_peer
    = Done (alice_expired, Some (EInvalidArgument "peer already expired")) w'
    /\ List.map fst (since one_peer w')
       = [MutexLock; PoolUnset (mkIP (Some (addr 10 0 0 5)));
          StorageDeletePeer 1; MutexUnlock].
Proof.
  exact (SetPeer_expired reliable net clock alice_expired one_peer eq_refl eq_refl).
Defined.

Lemma unsetPeer_best_effort_witness :
  let o := unsetPeer storage_stuck alice one_peer in
  (addr 10 0 0 5 ∉ used (final_state o))
  /\ iface (final_state o) !! "A"%string = None
  /\ allPeersGauge (final_state o) = allPeersGauge one_peer - 1.
Proof.
  intros o.
  destruct (unsetPeer_best_effort storage_stuck alice (addr 10 0 0 5) one_peer
              (final_state o) (Some (EFailure Storage)) eq_refl)
    as (_ & Hpool & Hwg & Hg).
  - vm_compute. reflexivity.
  - split; [apply Hpool; reflexivity|].
    split; [apply Hwg; reflexivity|exact Hg].
Defined.

Lemma UnsetPeer_nil_means_removed_witness :
  let o := UnsetPeer reliable 1 one_peer in
  exists peer a k,
    List.find (has_id 1) (rows one_peer) = Some peer
    /\ Ipv4 peer = Some (mkIP (Some a))
    /\ WireguardPublicKey peer = Some k
    /\ (forall r, r ∈ rows (final_state o) -> ID r <> 1)
    /\ (a ∈ used one_peer) /\ (a ∉ used (final_state o))
    /\ iface (final_state o) !! k = None.
Proof.
  intros o.
  apply (UnsetPeer_nil_means_removed reliable 1 one_peer (final_state o)).
  vm_compute. reflexivity.
Defined.

Lemma UpdatePeer_failure_keeps_pool_witness :
  used (final_state (UpdatePeer wireguard_down net clock alice_moved one_peer))
  = used one_peer.
Proof.
  apply (UpdatePeer_failure_keeps_pool wireguard_down net clock alice_moved
           (with_Updated alice_moved (Some clock)) (addr 10 0 0 6)
           (EFailure Wireguard) one_peer).
  - intros n ip. reflexivity.
  - reflexivity.
  - reflexivity.
  - vm_compute. reflexivity.
Defined.

Lemma UpdatePeerExpiration_past_removes_witness :
  exists w',
    UpdatePeerExpiration reliable net clock (Some alice_ids) (Some 500) one_peer
    = Done None w'
    /\ (forall r, r ∈ rows w' -> ID r <> ID alice)
    /\ (addr 10 0 0 5 ∉ used w')
    /\ iface w' !! "A"%string = None
    /\ In (EventPush PeerRemove (with_Expires alice (Some 500)), None)
         (since one_peer w').
Proof.
  apply (UpdatePeerExpiration_past_removes reliable net clock alice_ids alice
           500 (addr 10 0 0 5) "A" one_peer).
  - intros n c. reflexivity.
  - reflexivity.
  - reflexivity.
  - reflexivity.
  - reflexivity.
  - reflexivity.
  - apply is_used_true. vm_compute. reflexivity.
Defined.

Lemma UpdatePeer_masks_refused_entry_witness :
  exists w',
    UpdatePeer refuses_A2 net clock alice_rekeyed one_peer
    = Done (with_Updated alice_rekeyed (Some clock), None) w'
    /\ List.find (has_id 1) (rows w') = Some (with_Updated alice_rekeyed (Some clock))
    /\ iface w' = <["A"%string := alice]> (iface one_peer)
    /\ iface w' !! "A2"%string = iface one_peer !! "A2"%string
    /\ In (EventPush PeerUpdate (with_Updated alice_rekeyed (Some clock)), None)
         (since one_peer w').
Proof.
  apply (UpdatePeer_masks_refused_entry refuses_A2 net clock alice_rekeyed alice
           (mkIP (Some (addr 10 0 0 5))) "A" "A2" one_peer);
    try reflexivity.
  - discriminate.
  - intros n p Hp. cbn. apply bool_decide_eq_true_2. exact Hp.
  - intros n c Hc. destruct c; try reflexivity.
    cbn. apply bool_decide_eq_false_2. apply Hc. reflexivity.
Defined.

Lemma ConnectPeer_twice_witness :
  let w1 := final_state (ConnectPeer reliable net clock u1 fresh) in
  exists p2 w2,
    ConnectPeer reliable net clock u1_again w1 = Done (p2, None) w2
    /\ ID p2 = 1
    /\ Ipv4 p2 = Some (mkIP (Some (addr 10 0 0 5)))
    /\ rows w2 = rows fresh ++ [p2]
    /\ used w2 = used w1
    /\ iface w2 !! "K2"%string = Some p2
    /\ (forall k1, Some "K"%string = Some k1 -> k1 <> "K2"%string ->
        iface w2 !! k1 = None).
Proof.
  intros w1.
  apply (ConnectPeer_twice reliable net clock u1
           (with_ID (with_Ipv4 u1 (Some (mkIP (Some (addr 10 0 0 5))))) 1)
           u1_again "K2" fresh w1).
  - intros n c. reflexivity.
  - intros r [].
  - reflexivity.
  - vm_compute. reflexivity.
  - reflexivity.
  - reflexivity.
  - reflexivity.
  - reflexivity.
Defined.

Lemma restorePeers_programs_reserved_witness :
  let w' := final_state (restorePeers reliable net clock cold) in
  (forall q, In q (programmed (since cold w')) ->
     Expired clock q = false
     /\ exists a, Ipv4 q = Some (mkIP (Some a)) /\ a ∈ used w')
  /\ allPeersGauge w' = allPeersGauge cold
                         + Z.of_nat (length (programmed (since cold w'))).
Proof.
  intros w'.
  apply (restorePeers_programs_reserved reliable net clock cold w').
  vm_compute. reflexivity.
Defined.

Lemma restorePeers_wipes_expired_witness :
  List.Forall (fun r => Expired clock r = false)
    (rows (final_state (restorePeers reliable net clock cold))).
Proof.
  apply List.Forall_forall.
  apply (restorePeers_wipes_expired reliable net clock cold).
  - intros n id. reflexivity.
  - reflexivity.
  - vm_compute. reflexivity.
Defined.

Lemma restorePeer_migrates_witness :
  exists (b : Z) (w' : world),
    let p' := with_Ipv4 stray (Some (mkIP (Some b))) in
    restorePeer reliable net clock stray stray_only = Done tt w'
    /\ since stray_only w'
       = [ (PoolSet (mkIP (Some (addr 192 168 9 9))) (NetworkPolicy stray),
            Some ErrNotInRange);
           (PoolAlloc (NetworkPolicy stray), None);
           (StorageUpdatePeer p', None);
           (WgSetPeer p', None) ]
    /\ In b (net (NetworkPolicy stray))
    /\ (b ∉ used stray_only)
    /\ used w' = {[b]} ∪ used stray_only
    /\ rows w' = List.map (fun r => if has_id (ID stray) r then p' else r)
                   (rows stray_only)
    /\ iface w' = <[ "D"%string := p']> (iface stray_only)
    /\ allPeersGauge w' = allPeersGauge stray_only + 1.
Proof.
  apply (restorePeer_migrates reliable net clock stray (addr 192 168 9 9)
           "D"%string stray_only).
  - reflexivity.
  - reflexivity.
  - reflexivity.
  - reflexivity.
  - reflexivity.
  - exists (addr 10 0 0 6). split; [cbn; tauto|].
    apply is_used_false. vm_compute. reflexivity.
  - reflexivity.
Defined.

Lemma accumulate_unknown_witness :
  accumulate [stranger] uncapped = Done tt uncapped.
Proof.
  apply (accumulate_unknown [stranger] uncapped).
  intros p [<-|[]]. exists "Z"%string. split; [reflexivity|].
  vm_compute. reflexivity.
Defined.

Lemma accumulate_telescopes_witness :
  exists s' plast u,
    accumulate [busy; rewound] uncapped = Done tt s'
    /\ last [busy; rewound] = Some plast
    /\ Upstream plast = Some u
    /\ UpstreamBytesChange (state s')
       = wrap64 (UpstreamBytesChange (state uncapped) + (u - 0))
    /\ peers s' !! "K"%string = Some plast
    /\ updatedPeers s' !! "K"%string = Some plast.
Proof.
  apply (accumulate_telescopes [busy; rewound] "K" baseline 0 uncapped).
  - discriminate.
  - intros p [<-|[<-|[]]]; (split; [reflexivity|eexists; reflexivity]).
  - vm_compute. reflexivity.
  - reflexivity.
Defined.

Lemma Send_leaves_budget_within_thresholds_witness :
  ~ over_threshold (final_state (Send pushes_ok [busy] capped)).
Proof.
  apply (Send_leaves_budget_within_thresholds pushes_ok [busy] capped).
  - apply (reach_new pushes_ok (Some (mkSettings 60 1000 0)) [baseline]).
  - vm_compute. reflexivity.
Defined.

Lemma flush_twice_witness :
  exists s',
    sendUpdates pushes_ok (final_state (Send pushes_ok [busy] uncapped)) = Done tt s'
    /\ sendUpdates pushes_ok s' = Done tt s'.
Proof.
  apply (flush_twice pushes_ok).
  apply reach_Send. apply (reach_new pushes_ok None [baseline]).
Defined.

Lemma Remove_then_Send_witness :
  exists s',
    Remove baseline uncapped = Done tt s'
    /\ peers s' !! "K"%string = None
    /\ updatedPeers s' = updatedPeers uncapped
    /\ state s' = state uncapped
    /\ accumulate [busy] s' = Done tt s'.
Proof.
  exact (Remove_then_Send baseline busy "K" uncapped eq_refl eq_refl).
Defined.

Lemma Restart_steps_witness :
  let o := Runtime.Restart starter_fails idle in
  (exists eStop, eStop <> None /\ Some (EInternalError "no listener") = eStop
      /\ Runtime.calls (final_state o)
         = Runtime.calls idle ++ [(Runtime.ServicesShutdown, eStop)]
      /\ Runtime.RestartRequired (final_state o) = Runtime.RestartRequired idle)
  \/ (Runtime.calls (final_state o)
      = Runtime.calls idle
        ++ [(Runtime.ServicesShutdown, None);
            (Runtime.Starter, Some (EInternalError "no listener"))]
      /\ Runtime.RestartRequired (final_state o) = false).
Proof.
  intros o.
  apply (Restart_steps starter_fails idle (final_state o)
           (Some (EInternalError "no listener"))).
  reflexivity.
Defined.

Lemma ProcessEvents_restart_witness :
  match Runtime.ProcessEvents 0 1 all_fine (Runtime.mkEvent 1 Runtime.InfoOther) idle with
  | Done _ r' =>
      Runtime.RestartRequired r' = false
      /\ Runtime.calls r' = Runtime.calls idle
                            ++ [(Runtime.ServicesShutdown, None);
                                (Runtime.Starter, None)]
  | Crash r' =>
      exists e c, In (c, Some e) (drop (length (Runtime.calls idle)) (Runtime.calls r'))
                  /\ (c = Runtime.ServicesShutdown \/ c = Runtime.Starter)
  end.
Proof.
  apply (ProcessEvents_restart 0 1 all_fine (Runtime.mkEvent 1 Runtime.InfoOther) idle).
  - reflexivity.
  - discriminate.
Defined.

Lemma ProcessEvents_other_witness :
  let o := Runtime.ProcessEvents 0 1 all_fine (Runtime.mkEvent 0 Runtime.InfoOther) idle in
  Runtime.RestartRequired (final_state o) = Runtime.RestartRequired idle
  /\ (forall c e, In (c, e) (Runtime.calls (final_state o)) ->
        In (c, e) (Runtime.calls idle)
        \/ (c <> Runtime.ServicesShutdown /\ c <> Runtime.Starter))
  /\ (Runtime.EventType (Runtime.mkEvent 0 Runtime.InfoOther) = 0 ->
      Runtime.Info (Runtime.mkEvent 0 Runtime.InfoOther) = Runtime.InfoOther ->
      o = Crash idle).
Proof.
  apply (ProcessEvents_other 0 1 all_fine (Runtime.mkEvent 0 Runtime.InfoOther) idle).
  right. reflexivity.
Defined.

Lemma UnsetPeerByIdentifiers_needs_one_match_witness :
  let o := UnsetPeerByIdentifiers reliable (Some (mkIds (Some "bob"%string) None None)) one_peer in
  Some (EEntryNotFound "peer not found") <> None
  /\ rows (final_state o) = rows one_peer /\ used (final_state o) = used one_peer
  /\ iface (final_state o) = iface one_peer
  /\ allPeersGauge (final_state o) = allPeersGauge one_peer.
Proof.
  intros o.
  apply (UnsetPeerByIdentifiers_needs_one_match reliable
           (Some (mkIds (Some "bob"%string) None None))
           (Some (EEntryNotFound "peer not found")) one_peer (final_state o)).
  - vm_compute. reflexivity.
  - intros ids p Hids. injection Hids as <-. vm_compute. discriminate.
Defined.
